(** * PsychoPy alert and warning pipeline

    A shallow embedding of [psychopy/alerts/Alerts.py] and
    [psychopy/warnings.py].  Python objects with mutable attributes are
    kept in explicit state records, exceptions are values of a result
    type, and every method is a function in a small state-and-exception
    monad. *)

From Stdlib Require Import ZArith String List Lia DecimalString.
From stdpp Require Import base option list strings gmap.

Local Open Scope Z_scope.
Local Open Scope string_scope.
Local Open Scope list_scope.

(** ** Python values, exceptions and the monad *)

(** The objects that reach the pipeline as a context ([obj]): the code only
    stores them and renders them with [str]. *)
Inductive PyVal :=
| PyNone
| PyInt (n : Z)
| PyStr (s : string)
| PyClass (name : string).

(** [str(n)] for a Python [int]. *)
Definition str_int (n : Z) : string := NilZero.string_of_int (Z.to_int n).

(** [str(v)], as ["{}".format(v)] and ["%s" % v] compute it. *)
Definition py_str (v : PyVal) : string :=
  match v with
  | PyNone => "None"
  | PyInt n => str_int n
  | PyStr s => s
  | PyClass name => "<class '" +:+ name +:+ "'>"
  end.

Inductive Exception :=
| KeyError (key : Z)
| AttributeError (attr : string)
| IndexError
| FileNotFoundError (path : string).

Inductive Result (A : Type) :=
| Ok (a : A)
| Raise (e : Exception).
Arguments Ok {A} a.
Arguments Raise {A} e.

(** A computation over a state [S]: it returns a value or raises, and in
    both cases leaves a state behind (Python does not roll back). *)
Definition M (S A : Type) : Type := S -> Result A * S.

Definition ret {S A} (a : A) : M S A := fun s => (Ok a, s).
Definition raise {S A} (e : Exception) : M S A := fun s => (Raise e, s).
Definition bind {S A B} (c : M S A) (k : A -> M S B) : M S B :=
  fun s => match c s with
           | (Ok a, s') => k a s'
           | (Raise e, s') => (Raise e, s')
           end.
Definition gets {S A} (f : S -> A) : M S A := fun s => (Ok (f s), s).
Definition modify {S} (f : S -> S) : M S unit := fun s => (Ok tt, f s).

Declare Scope py_scope.
Delimit Scope py_scope with py.
Notation "x <- c ;; k" := (bind c (fun x => k))
  (at level 100, c at next level, right associativity) : py_scope.
Notation "c ;; k" := (bind c (fun _ => k))
  (at level 100, right associativity) : py_scope.
Local Open Scope py_scope.

(** [for x in l: body(x)]: stops at the first exception. *)
Fixpoint for_each {S A} (body : A -> M S unit) (l : list A) : M S unit :=
  match l with
  | [] => ret tt
  | x :: l' => body x ;; for_each body l'
  end.

(** Run a computation with a smaller state, embedded in a larger one. *)
Definition zoom {S T A} (get : T -> S) (put : S -> T -> T) (c : M S A)
  : M T A :=
  fun t => let (r, s') := c (get t) in (r, put s' t).

(** The line feed that Python writes as a backslash followed by n. *)
Definition nl : string := String (Ascii.ascii_of_nat 10) EmptyString.

(** [s.endswith(suf)] *)
Fixpoint ends_with (suf s : string) : bool :=
  if String.eqb suf s then true
  else match s with
       | EmptyString => false
       | String _ s' => ends_with suf s'
       end.

(** ** psychopy/alerts/Alerts.py *)
Module Alerts.

(** *** The environment: log folder and terminal *)

Record File := { f_name : string; f_text : string }.

Inductive Event :=
| MkDir
| Removed (path : string)
| Appended (path text : string)
| Printed (text : string).

(** [logFolder] is [None] while the [alertLogs] folder does not exist,
    otherwise its files in the order in which the folder lists them.
    [terminal] holds the lines printed so far.  [events] records every
    effect in the order in which it happened. *)
Record Env := {
  logFolder : option (list File);
  terminal : list string;
  events : list Event
}.

Definition set_logFolder (d : option (list File)) (e : Env) : Env :=
  {| logFolder := d; terminal := terminal e; events := events e |}.
Definition log_event (ev : Event) (e : Env) : Env :=
  {| logFolder := logFolder e; terminal := terminal e;
     events := events e ++ [ev] |}.

(** [Path.glob('*.log')] *)
Definition is_log (f : File) : bool := ends_with ".log" (f_name f).
Definition glob_logs (d : list File) : list File := List.filter is_log d.

(** [os.remove(path)] inside the folder. *)
Fixpoint os_remove (path : string) (d : list File) : list File :=
  match d with
  | [] => []
  | f :: d' => if String.eqb (f_name f) path then d'
               else f :: os_remove path d'
  end.

(** [open(path, 'a+')] followed by [fp.write(text)]: the file is created
    when it is missing, otherwise the text goes to its end. *)
Fixpoint append_file (path text : string) (d : list File) : list File :=
  match d with
  | [] => [ {| f_name := path; f_text := text |} ]
  | f :: d' =>
      if String.eqb (f_name f) path
      then {| f_name := path; f_text := f_text f +:+ text |} :: d'
      else f :: append_file path text d'
  end.

(** [print(msg)] *)
Definition print (msg : string) : M Env unit :=
  modify (fun e => log_event (Printed msg)
    {| logFolder := logFolder e; terminal := terminal e ++ [msg];
       events := events e |}).

(** *** MasterLog *)

Record MasterLog := { alertLogFile : string }.

(** [MasterLog.__init__]; [stamp] is what
    [time.strftime("%Y.%m.%d.%H.%M.%S")] returns. *)
Definition MasterLog_init (stamp : string) : M Env MasterLog :=
  let self := {| alertLogFile := "alertLogFile_" +:+ stamp +:+ ".log" |} in
  folder <- gets logFolder ;;
  match folder with
  | None =>
      modify (fun e => log_event MkDir (set_logFolder (Some []) e)) ;;
      ret self
  | Some d =>
      let logs := glob_logs d in
      if (5 <=? Z.of_nat (length logs))%Z then
        match logs with
        | [] => raise IndexError
        | log0 :: _ =>
            modify (fun e => log_event (Removed (f_name log0))
              (set_logFolder (Some (os_remove (f_name log0) d)) e)) ;;
            ret self
        end
      else ret self
  end.

(** [MasterLog.write] *)
Definition MasterLog_write (self : MasterLog) (msg : string) : M Env unit :=
  folder <- gets logFolder ;;
  match folder with
  | None => raise (FileNotFoundError (alertLogFile self))
  | Some d =>
      let text := msg +:+ nl in
      modify (fun e => log_event (Appended (alertLogFile self) text)
        (set_logFolder (Some (append_file (alertLogFile self) text d)) e))
  end.

(** *** Catalogue and AlertEntry *)

(** Modelled from the spec: the resource [alertsCatalogue.yml] that
    [AlertCatalogue.load] reads is not part of the sources.  Each entry
    has the four fields [code], [cat], [msg] and [url], and the
    catalogue is keyed by code. *)
Record CatalogueEntry := {
  c_code : Z;
  c_cat : string;
  c_msg : string;
  c_url : string
}.

Record AlertEntry := {
  ae_name : string;
  ae_code : Z;
  ae_cat : string;
  ae_msg : string;
  ae_url : string;
  ae_obj : PyVal
}.

(** The module's globals [catalogue], [root] and [master], and the
    environment they act on. *)
Record World := {
  env : Env;
  catalogue : gmap Z CatalogueEntry;
  alertLog : list AlertEntry;
  master : MasterLog
}.

Definition set_env (e : Env) (w : World) : World :=
  {| env := e; catalogue := catalogue w; alertLog := alertLog w;
     master := master w |}.
Definition set_alertLog (l : list AlertEntry) (w : World) : World :=
  {| env := env w; catalogue := catalogue w; alertLog := l;
     master := master w |}.
Definition in_env {A} (c : M Env A) : M World A := zoom env set_env c.

(** [catalogue.alert[code]] *)
Definition catalogue_lookup (code : Z) : M World CatalogueEntry :=
  cat <- gets catalogue ;;
  match cat !! code with
  | Some entry => ret entry
  | None => raise (KeyError code)
  end.

(** [AlertEntry.__init__] *)
Definition AlertEntry_init (name : string) (code : Z) (obj : PyVal)
  : M World AlertEntry :=
  e1 <- catalogue_lookup code ;;
  e2 <- catalogue_lookup code ;;
  e3 <- catalogue_lookup code ;;
  e4 <- catalogue_lookup code ;;
  ret {| ae_name := name; ae_code := c_code e1; ae_cat := c_cat e2;
         ae_msg := c_msg e3; ae_url := c_url e4; ae_obj := obj |}.

(** *** AlertLog *)

(** [AlertLog.write] *)
Definition AlertLog_write (alert : AlertEntry) : M World unit :=
  modify (fun w => set_alertLog (alertLog w ++ [alert]) w).

(** The line built in the body of [AlertLog.flush]. *)
Definition format_alert (i : AlertEntry) : string :=
  "AlertLogger: " +:+ ae_name i +:+ " | " +:+
  "Code: " +:+ str_int (ae_code i) +:+ " | " +:+
  "Category: " +:+ ae_cat i +:+ " | " +:+
  "Message: " +:+ ae_msg i +:+ " | " +:+
  "Component: " +:+ py_str (ae_obj i).

Definition flush_entry (i : AlertEntry) : M World unit :=
  let msg := format_alert i in
  m <- gets master ;;
  in_env (MasterLog_write m msg) ;;
  in_env (print msg).

(** [AlertLog.flush] *)
Definition AlertLog_flush : M World unit :=
  l <- gets alertLog ;;
  for_each flush_entry l ;;
  modify (set_alertLog []).

(** *** AlertLogger *)

Record AlertLogger := { name : string }.

(** [AlertLogger.write]; the default of [obj] is the class [object]. *)
Definition AlertLogger_write (self : AlertLogger) (code : Z) (obj : PyVal)
  : M World unit :=
  entry <- AlertEntry_init (name self) code obj ;;
  AlertLog_write entry.

Definition AlertLogger_flush (self : AlertLogger) : M World unit :=
  AlertLog_flush.

(** The three statements at the end of the module: [catalogue],
    [root] and [master] are created when the module is imported. *)
Definition import_module (cat : gmap Z CatalogueEntry) (stamp : string)
  (e : Env) : Result World :=
  match MasterLog_init stamp e with
  | (Ok m, e') =>
      Ok {| env := e'; catalogue := cat; alertLog := []; master := m |}
  | (Raise x, _) => Raise x
  end.

End Alerts.

(** ** psychopy/warnings.py *)
Module Warnings.

Record StdWarning := { w_msg : string; w_info : string }.

Definition stdWarnings : gmap Z StdWarning :=
  list_to_map [
    (1001, {| w_msg := "Dropped a frame";
              w_info := "PsychoPy had too much processing to do between two window.flip() commands" |});
    (1002, {| w_msg := "The stimulus you tried to draw was incredibly small";
              w_info := "Have you set the size to be, say, 0.5, with units of 'pix'" |});
    (2001, {| w_msg := "You have a constant variable";
              w_info := "Your Builder component " +:+ "f" +:+
                " has a parameter that is set to be constant" +:+ nl +:+
                "            but looks like a variable value" |});
    (2002, {| w_msg := "Syntax error compiling";
              w_info := "There was a syntax error while compiling your script." +:+ nl +:+
                "If you have any custom code (e.g. a code component then this is likely the source of" +:+ nl +:+
                "the problem. If not then we might need to see the output of the error to work out what happened" |});
    (3001, {| w_msg := "Failed to load file";
              w_info := "That file failed to load" |})
  ].

(** What [sys.stderr] can be bound to: a file-like text stream, which has
    no [receiveWarning], or an instance of [_BaseErrorHandler], which is
    known by its identity. *)
Inductive Target :=
| TextStream (name : string)
| HandlerObj (id : nat).

#[global] Instance Target_eq_dec : EqDecision Target.
Proof. solve_decision. Defined.

(** An element of [errList]: the text given to [write], or the dict
    built by [receiveWarning]. *)
Inductive ErrItem :=
| Raw (text : string)
| Warned (code : Z) (obj : PyVal) (msg : string) (trace : list string).

(** The instance attributes of a handler; [None] is an attribute that
    has not been assigned. *)
Record Handler := {
  errList : option (list ErrItem);
  autoFlush : option bool;
  origErr : option Target
}.

Definition bare : Handler :=
  {| errList := None; autoFlush := None; origErr := None |}.
Definition set_errList (l : list ErrItem) (o : Handler) : Handler :=
  {| errList := Some l; autoFlush := autoFlush o; origErr := origErr o |}.
Definition set_origErr (t : Target) (o : Handler) : Handler :=
  {| errList := errList o; autoFlush := autoFlush o; origErr := Some t |}.

Inductive Level := WARNING | DEBUG.

Inductive Event :=
| Printed (item : ErrItem)
| StdErrBound (t : Target)
| Logged (level : Level) (text : string).

(** [heap] maps the identity of a handler to its attributes; a handler
    for which nothing has been assigned yet is not in the map.  [stdout]
    holds the objects given to [print], [log] the records given to
    [psychopy.logging], and [call_stack] is what
    [traceback.format_stack()] returns inside [warn].  [events] records
    every effect in the order in which it happened. *)
Record World := {
  sys_stderr : Target;
  heap : gmap nat Handler;
  stdout : list ErrItem;
  log : list (Level * string);
  call_stack : list string;
  events : list Event
}.

Definition attrs (w : World) (self : nat) : Handler :=
  default bare (heap w !! self).

Definition set_attrs (self : nat) (f : Handler -> Handler) (w : World)
  : World :=
  {| sys_stderr := sys_stderr w;
     heap := <[self := f (attrs w self)]> (heap w);
     stdout := stdout w; log := log w; call_stack := call_stack w;
     events := events w |}.

(** [sys.stderr = t] *)
Definition bind_stderr (t : Target) : M World unit :=
  modify (fun w =>
    {| sys_stderr := t; heap := heap w; stdout := stdout w; log := log w;
       call_stack := call_stack w;
       events := events w ++ [StdErrBound t] |}).

(** [print(err)] *)
Definition print (err : ErrItem) : M World unit :=
  modify (fun w =>
    {| sys_stderr := sys_stderr w; heap := heap w;
       stdout := stdout w ++ [err]; log := log w;
       call_stack := call_stack w;
       events := events w ++ [Printed err] |}).

(** Modelled from the spec: the module [psychopy.logging] is not part of
    the sources; [logging.warning] and [logging.debug] route one text
    through the general logging facility at that severity. *)
Definition logging (level : Level) (text : string) : M World unit :=
  modify (fun w =>
    {| sys_stderr := sys_stderr w; heap := heap w; stdout := stdout w;
       log := log w ++ [(level, text)]; call_stack := call_stack w;
       events := events w ++ [Logged level text] |}).

(** Reading [self.attr]. *)
Definition getattr {A} (self : nat) (field : Handler -> option A)
  (attr : string) : M World A :=
  o <- gets (fun w => attrs w self) ;;
  match field o with
  | Some v => ret v
  | None => raise (AttributeError attr)
  end.

(** *** _BaseErrorHandler *)

Definition __init__ (self : nat) : M World unit :=
  modify (set_attrs self (fun o =>
    {| errList := Some []; autoFlush := Some true; origErr := origErr o |})).

Definition setStdErr (self : nat) : M World unit :=
  err <- gets sys_stderr ;;
  modify (set_attrs self (set_origErr err)) ;;
  bind_stderr (HandlerObj self).

Definition unsetStdErr (self : nat) : M World unit :=
  err <- gets sys_stderr ;;
  if decide (HandlerObj self = err) then
    orig <- getattr self origErr "origErr" ;;
    bind_stderr orig
  else ret tt.

Definition flush (self : nat) : M World unit :=
  o <- gets (fun w => attrs w self) ;;
  match errList o with
  | Some l =>
      for_each print l ;;
      modify (set_attrs self (set_errList []))
  | None => ret tt
  end.

Definition receiveWarning (self : nat) (code : Z) (obj : PyVal)
  (msg : string) (trace : list string) : M World unit :=
  l <- getattr self errList "errList" ;;
  modify (set_attrs self (set_errList (l ++ [Warned code obj msg trace]))).

Definition write (self : nat) (toWrite : string) : M World unit :=
  l <- getattr self errList "errList" ;;
  modify (set_attrs self (set_errList (l ++ [Raw toWrite]))) ;;
  auto <- getattr self autoFlush "autoFlush" ;;
  if auto : bool then flush self else ret tt.

(** [__del__] calls [self.flush()], and [flush] is the method that a
    subclass is to override: [del_with] is [__del__] as a class with the
    method [flush_method] inherits it. *)
Definition del_with (flush_method : nat -> M World unit) (self : nat)
  : M World unit :=
  flush_method self ;;
  unsetStdErr self.

Definition __del__ (self : nat) : M World unit :=
  del_with flush self.

(** [ErrorHandler.__init__] of [psychopy/app/pavlovia_ui/_base.py]. *)
Definition ErrorHandler_init (self : nat) : M World unit :=
  __init__ self ;;
  setStdErr self.

(** *** warn *)

Definition warn (code : Z) (obj : PyVal) (msg : string)
  (trace : option (list string)) : M World unit :=
  msg <- (if String.eqb msg "" then
            match stdWarnings !! code with
            | Some w => ret (w_msg w)
            | None => raise (KeyError code)
            end
          else ret msg) ;;
  trace <- (match trace with
            | Some (entry :: rest) => ret (entry :: rest)
            | _ => stack <- gets call_stack ;; ret (removelast stack)
            end) ;;
  err <- gets sys_stderr ;;
  match err with
  | HandlerObj h => receiveWarning h code obj msg trace
  | TextStream _ =>
      let warnStr := str_int code +:+ ": " +:+ msg in
      let traceStr :=
        foldl (fun acc entry => acc +:+ entry)
              ("Warning trace (" +:+ str_int code +:+ "):" +:+ nl) trace in
      logging WARNING warnStr ;;
      logging DEBUG traceStr
  end.

End Warnings.

(** ** psychopy/app/pavlovia_ui/_base.py *)
Module PavloviaUI.

(** A string stands for a Python [str] by its code points, all of them
    below 256. *)

Definition tab : Ascii.ascii := Ascii.ascii_of_nat 9.
Definition LF : Ascii.ascii := Ascii.ascii_of_nat 10.
Definition CR : Ascii.ascii := Ascii.ascii_of_nat 13.

(** The exceptions of this module: [TypeError] and [ValueError] besides
    the ones above. *)
Inductive Error :=
| TypeError
| ValueError
| Builtin (e : Exception).

(** [s.startswith(pre)] *)
Fixpoint starts_with (pre s : string) : bool :=
  match pre, s with
  | EmptyString, _ => true
  | String _ _, EmptyString => false
  | String a pre', String b s' => Ascii.eqb a b && starts_with pre' s'
  end.

(** [s[n:]] *)
Fixpoint drop (n : nat) (s : string) : string :=
  match n, s with
  | O, _ => s
  | S _, EmptyString => EmptyString
  | S n', String _ s' => drop n' s'
  end.

(** The text before and the text after the first occurrence of [sep]. *)
Fixpoint find_first (sep s : string) : option (string * string) :=
  if starts_with sep s then Some (EmptyString, drop (String.length sep) s)
  else match s with
       | EmptyString => None
       | String c s' =>
           match find_first sep s' with
           | Some (before, after) => Some (String c before, after)
           | None => None
           end
       end.

(** [s.split(sep)] for a separator that is not empty: the occurrences of
    the separator are taken from the left.  The number of cuts is at most
    the length of [s], which is the recursion bound. *)
Fixpoint split_bounded (bound : nat) (sep s : string) : list string :=
  match find_first sep s with
  | None => [s]
  | Some (before, after) =>
      match bound with
      | O => [s]
      | S bound' => before :: split_bounded bound' sep after
      end
  end.

(** [s.split(sep)] *)
Definition split (sep s : string) : Error + list string :=
  if String.eqb sep "" then inl ValueError
  else inr (split_bounded (String.length s) sep s).

(** [PavloviaMiniBrowser.getParamFromURL]; [current] is what
    [self.browser.GetCurrentURL()] returns. *)
Definition getParamFromURL (current : string) (paramName : string)
  (url : option string) : Error + string :=
  let url := match url with
             | None => current
             | Some u => u
             end in
  match split (paramName +:+ "=") url with
  | inl err => inl err
  | inr (_ :: second :: _) =>
      match split "&" second with
      | inl err => inl err
      | inr (first :: _) => inr first
      | inr [] => inl (Builtin IndexError)
      end
  | inr _ => inl (Builtin IndexError)
  end.

(** [PavloviaCommitDialog.getCommitMsg]; [title] and [descr] are the
    values of the two text controls, and a control [IsEmpty] when its
    value is the empty string. *)
Definition getCommitMsg (title descr : string) : string :=
  if String.eqb title "" then "_"
  else if negb (String.eqb descr "")
       then title +:+ (nl +:+ nl) +:+ descr
       else title.

(** What [IssuesRichText.write] can be given: a text, or a list such as
    the [errList] of a handler. *)
Inductive WriteArg :=
| Text (s : string)
| Records (items : list Warnings.ErrItem).

(** The loop of [getSringFromErrorList] over the items of a list.
    Subscripting a text item with ['code'] is a [TypeError];
    [item['trace'][-1]] is an [IndexError] when the trace is empty. *)
Fixpoint error_lines (errorString : string) (items : list Warnings.ErrItem)
  : Error + string :=
  match items with
  | [] => inr errorString
  | Warnings.Raw _ :: _ => inl TypeError
  | Warnings.Warned code obj msg trace :: rest =>
      match last trace with
      | None => inl (Builtin IndexError)
      | Some frame =>
          error_lines
            (errorString +:+
             (str_int code +:+ nl +:+ py_str obj +:+ nl +:+ msg +:+ nl +:+
              frame +:+ nl))
            rest
      end
  end.

(** [IssuesRichText.getSringFromErrorList].  The items of a text are its
    characters, and subscripting the first of them is a [TypeError]. *)
Definition getSringFromErrorList (err : WriteArg) : Error + string :=
  match err with
  | Text EmptyString => inr EmptyString
  | Text (String _ _) => inl TypeError
  | Records items => error_lines EmptyString items
  end.

(** [thisLine.replace("\t", "    ")] *)
Fixpoint replace_tabs (s : string) : string :=
  match s with
  | EmptyString => EmptyString
  | String c s' =>
      if Ascii.eqb c tab then "    " +:+ replace_tabs s'
      else String c (replace_tabs s')
  end.

(** The characters at which [str.splitlines] ends a line, among the code
    points below 256. *)
Definition is_line_break (c : Ascii.ascii) : bool :=
  match Ascii.nat_of_ascii c with
  | 10%nat | 11%nat | 12%nat | 13%nat | 28%nat | 29%nat | 30%nat
  | 133%nat => true
  | _ => false
  end.

(** [s.splitlines(True)], with [line] the part of the current line read
    so far: a carriage return followed by a line feed ends one line. *)
Fixpoint splitlines_from (line s : string) : list string :=
  match s with
  | EmptyString => if String.eqb line "" then [] else [line]
  | String c s' =>
      if Ascii.eqb c CR then
        match s' with
        | String c' s'' =>
            if Ascii.eqb c' LF
            then (line +:+ String c (String c' EmptyString))
                 :: splitlines_from EmptyString s''
            else (line +:+ String c EmptyString)
                 :: splitlines_from EmptyString s'
        | EmptyString => [line +:+ String c EmptyString]
        end
      else if is_line_break c
      then (line +:+ String c EmptyString) :: splitlines_from EmptyString s'
      else splitlines_from (line +:+ String c EmptyString) s'
  end.

Definition splitlines (s : string) : list string :=
  splitlines_from EmptyString s.

(** ['200' in thisLine], which is what
    [len(re.findall('200', thisLine)) > 0] tests. *)
Fixpoint contains (sub s : string) : bool :=
  if starts_with sub s then true
  else match s with
       | EmptyString => false
       | String _ s' => contains sub s'
       end.

(** The calls that [write] makes on the rich text control. *)
Inductive WidgetOp :=
| MoveEnd
| BeginTextColour (r g b : Z)
| WriteText (text : string)
| EndTextColour
| ShowLastPosition.

(** The body of the loop of [IssuesRichText.write] for one line. *)
Definition write_line (thisLine : string) : list WidgetOp :=
  let thisLine := replace_tabs thisLine in
  if contains "200" thisLine then
    [BeginTextColour 0 150 0; WriteText thisLine; EndTextColour]
  else if contains "100" thisLine then
    [BeginTextColour 150 0 0; WriteText thisLine; EndTextColour]
  else [WriteText thisLine].

(** [IssuesRichText.write]: the exception, if any, and the calls made on
    the control.  The string that [getSringFromErrorList] returns is a
    [str], so the branch for [bytes] is not taken, and [replace] on a
    [str] does not raise. *)
Definition write (inStr : WriteArg) : option Error * list WidgetOp :=
  match getSringFromErrorList inStr with
  | inl err => (Some err, [MoveEnd])
  | inr text =>
      (None,
       [MoveEnd] ++ flat_map write_line (splitlines text) ++
       [MoveEnd; ShowLastPosition])
  end.

End PavloviaUI.

(** ** Observations on the log folder *)
Section Observations.
Import Alerts.

(** Whether the folder has a file of that name. *)
Definition has_file (path : string) (d : list File) : bool :=
  existsb (fun f => String.eqb (f_name f) path) d.

(** The text of a file, empty when the file does not exist. *)
Fixpoint file_text (path : string) (d : list File) : string :=
  match d with
  | [] => ""
  | f :: d' => if String.eqb (f_name f) path then f_text f
               else file_text path d'
  end.

(** The [.log] files of the environment's folder. *)
Definition log_files (e : Env) : list File :=
  match logFolder e with
  | Some d => glob_logs d
  | None => []
  end.

(** The folder after the texts [msgs] have been written, one
    [MasterLog.write] each, to the file [path]. *)
Definition write_all (path : string) (msgs : list string) (d : list File)
  : list File :=
  foldl (fun d msg => append_file path (msg +:+ nl) d) d msgs.

(** Whether the environment's folder has a file of that name. *)
Definition folder_has (path : string) (e : Env) : bool :=
  match logFolder e with
  | Some d => has_file path d
  | None => false
  end.

(** The environment after the lines have been sent to the file [path]
    and to the terminal, each line to the file first. *)
Definition emit_all (path : string) (lines : list string) (e : Env) : Env :=
  {| logFolder := option_map (write_all path lines) (logFolder e);
     terminal := terminal e ++ lines;
     events := events e ++
       flat_map (fun l => [Appended path (l +:+ nl); Printed l]) lines |}.

(** A log file left behind by an earlier run. *)
Definition old_log (second : string) : File :=
  {| f_name := "alertLogFile_2024.01.01.00.00.0" +:+ second +:+ ".log";
     f_text := "" |}.

Definition env_of (d : list File) : Env :=
  {| logFolder := Some d; terminal := []; events := [] |}.

(** A catalogue with one entry, and the world of a run that has imported
    the module with it. *)
Definition entry_2001 : CatalogueEntry :=
  {| c_code := 2001; c_cat := "Builder"; c_msg := "Unrecognised value";
     c_url := "https://psychopy.org/alerts/2001.html" |}.

Definition sample_catalogue : gmap Z CatalogueEntry :=
  {[ 2001 := entry_2001 ]}.

Definition sample_world : World :=
  {| env := env_of [old_log "1"];
     catalogue := sample_catalogue;
     alertLog := [];
     master := {| alertLogFile := "alertLogFile_2024.01.01.00.00.06.log" |} |}.

Definition sample_entry (source : string) (component : string) : AlertEntry :=
  {| ae_name := source; ae_code := 2001; ae_cat := "Builder";
     ae_msg := "Unrecognised value";
     ae_url := "https://psychopy.org/alerts/2001.html";
     ae_obj := PyStr component |}.

End Observations.

(** ** Observations on handlers *)
Section HandlerObservations.
Import Warnings.

(** The world after the items have been printed, in that order. *)
Definition printed (l : list ErrItem) (w : World) : World :=
  {| sys_stderr := sys_stderr w; heap := heap w; stdout := stdout w ++ l;
     log := log w; call_stack := call_stack w;
     events := events w ++ map Printed l |}.

(** The message [warn] works with: the override when there is one,
    otherwise the message of the code in [stdWarnings], if any. *)
Definition message_of (code : Z) (msg : string) : option string :=
  if String.eqb msg "" then w_msg <$> stdWarnings !! code else Some msg.

(** The trace [warn] works with: the one given unless it is missing or
    empty, otherwise the current stack without its last frame. *)
Definition trace_of (w : World) (trace : option (list string))
  : list string :=
  match trace with
  | Some (entry :: rest) => entry :: rest
  | _ => removelast (call_stack w)
  end.

(** The calls a client can make on a handler. *)
Inductive Call :=
| CallSetStdErr
| CallUnsetStdErr
| CallFlush
| CallReceiveWarning (code : Z) (obj : PyVal) (msg : string)
    (trace : list string)
| CallWrite (text : string)
| CallDel.

Definition call (self : nat) (c : Call) : M World unit :=
  match c with
  | CallSetStdErr => setStdErr self
  | CallUnsetStdErr => unsetStdErr self
  | CallFlush => flush self
  | CallReceiveWarning code obj msg trace =>
      receiveWarning self code obj msg trace
  | CallWrite text => write self text
  | CallDel => __del__ self
  end.

(** The world after a series of calls whose exceptions, if any, are
    caught by the caller. *)
Definition after_calls (self : nat) (cs : list Call) (w : World) : World :=
  foldl (fun w c => snd (call self c w)) w cs.

(** A process whose standard error is the usual text stream and in which
    no handler has been created. *)
Definition fresh_world : World :=
  {| sys_stderr := TextStream "<stderr>"; heap := ∅; stdout := [];
     log := []; call_stack := ["  File main.py, line 1, in <module>" +:+ nl;
                               "  File warnings.py, line 58, in warn" +:+ nl];
     events := [] |}.

(** The world in which a computation leaves [fresh_world]. *)
Definition world_after (c : M World unit) : World := snd (c fresh_world).

(** The standard error is bound to the handler and the handler remembers
    itself as the previous target. *)
Definition self_bound (self : nat) (w : World) : Prop :=
  sys_stderr w = HandlerObj self /\
  origErr (attrs w self) = Some (HandlerObj self).

(** A handler created by [_BaseErrorHandler()] to which the standard
    error was bound by assignment, without [setStdErr]. *)
Definition bound_by_assignment : M World unit :=
  __init__ 0%nat ;;
  bind_stderr (HandlerObj 0%nat).

End HandlerObservations.

(** ** Observations for the further properties *)
Section FurtherObservations.
Import Alerts.

(** The entry that [AlertEntry.__init__] builds from a catalogue entry. *)
Definition entry_for (entry : CatalogueEntry) (source : string)
  (obj : PyVal) : AlertEntry :=
  {| ae_name := source; ae_code := c_code entry; ae_cat := c_cat entry;
     ae_msg := c_msg entry; ae_url := c_url entry; ae_obj := obj |}.

(** One call [logger.write(code, obj)], with the catalogue entry that the
    code is expected to have. *)
Record WriteCall := {
  wc_logger : AlertLogger;
  wc_code : Z;
  wc_obj : PyVal;
  wc_entry : CatalogueEntry
}.

Definition do_write (c : WriteCall) : M World unit :=
  AlertLogger_write (wc_logger c) (wc_code c) (wc_obj c).

Definition written (c : WriteCall) : AlertEntry :=
  entry_for (wc_entry c) (name (wc_logger c)) (wc_obj c).

(** One call [warn(code, obj, msg, trace)]. *)
Record WarnCall := {
  wn_code : Z;
  wn_obj : PyVal;
  wn_msg : string;
  wn_trace : option (list string)
}.

Definition do_warn (c : WarnCall) : M Warnings.World unit :=
  Warnings.warn (wn_code c) (wn_obj c) (wn_msg c) (wn_trace c).

(** The record that a handler receives for a call of [warn], when the
    message of the call resolves. *)
Definition record_of (stack : list string) (c : WarnCall)
  : option Warnings.ErrItem :=
  match message_of (wn_code c) (wn_msg c) with
  | Some m =>
      Some (Warnings.Warned (wn_code c) (wn_obj c) m
              match wn_trace c with
              | Some (entry :: rest) => entry :: rest
              | _ => removelast stack
              end)
  | None => None
  end.

(** The handlers other than [self] have the attributes they had, and the
    log has the records it had. *)
Definition elsewhere_same (self : nat) (w w' : Warnings.World) : Prop :=
  (forall other, other <> self ->
                 Warnings.attrs w' other = Warnings.attrs w other) /\
  Warnings.log w' = Warnings.log w.

(** [sub] occurs in [s]. *)
Definition occurs (sub s : string) : Prop :=
  exists before after, s = before +:+ sub +:+ after.

(** The text that a series of calls on the rich text control writes. *)
Fixpoint written_text (ops : list PavloviaUI.WidgetOp) : string :=
  match ops with
  | [] => EmptyString
  | PavloviaUI.WriteText text :: rest => text +:+ written_text rest
  | _ :: rest => written_text rest
  end.

(** A structured record whose trace has at least one frame, [sh_frame]
    being the last and [sh_earlier] the ones before it. *)
Record Shown := {
  sh_code : Z;
  sh_obj : PyVal;
  sh_msg : string;
  sh_earlier : list string;
  sh_frame : string
}.

Definition shown_item (r : Shown) : Warnings.ErrItem :=
  Warnings.Warned (sh_code r) (sh_obj r) (sh_msg r)
                  (sh_earlier r ++ [sh_frame r]).

(** The four lines that stand for the record in the issues panel. *)
Definition shown_lines (r : Shown) : list string :=
  [str_int (sh_code r) +:+ nl; py_str (sh_obj r) +:+ nl; sh_msg r +:+ nl;
   sh_frame r +:+ nl].

(** No character of the string ends a line. *)
Fixpoint one_line (s : string) : bool :=
  match s with
  | EmptyString => true
  | String c s' => negb (PavloviaUI.is_line_break c) && one_line s'
  end.


End FurtherObservations.

(** ** Reasoning about computations *)

Ltac run :=
  unfold bind, gets, modify, ret, raise, zoom; simpl.

Lemma bind_ok {S A B} (c : M S A) (k : A -> M S B) s a s' :
  c s = (Ok a, s') -> bind c k s = k a s'.
Proof. intros H. unfold bind. now rewrite H. Qed.

Lemma bind_raise {S A B} (c : M S A) (k : A -> M S B) s e s' :
  c s = (Raise e, s') -> bind c k s = (Raise e, s').
Proof. intros H. unfold bind. now rewrite H. Qed.

Lemma ends_with_app suf p : ends_with suf (p +:+ suf) = true.
Proof.
  induction p as [|c p IH].
  - change ("" +:+ suf) with suf.
    destruct suf; cbn [ends_with]; now rewrite String.eqb_refl.
  - change (String c p +:+ suf) with (String c (p +:+ suf)).
    cbn [ends_with]. rewrite IH.
    now destruct (String.eqb suf (String c (p +:+ suf))).
Qed.

(** ** The log folder *)
Section LogFolder.
Import Alerts.

#[local] Arguments glob_logs : simpl never.
#[local] Arguments is_log : simpl never.

Lemma glob_logs_cons f d :
  glob_logs (f :: d) = if is_log f then f :: glob_logs d else glob_logs d.
Proof. reflexivity. Qed.

Lemma is_log_name f g : f_name f = f_name g -> is_log f = is_log g.
Proof. unfold is_log. now intros ->. Qed.

Lemma os_remove_first_log d log0 rest :
  glob_logs d = log0 :: rest ->
  glob_logs (os_remove (f_name log0) d) = rest.
Proof.
  induction d as [|f d IH]; [discriminate|].
  rewrite glob_logs_cons. simpl. destruct (is_log f) eqn:Hf.
  - intros [= <- <-]. now rewrite String.eqb_refl.
  - intros H. destruct (String.eqb (f_name f) (f_name log0)) eqn:Hn.
    + apply String.eqb_eq in Hn. apply is_log_name in Hn.
      assert (Hl : is_log log0 = true).
      { assert (Hin : In log0 (glob_logs d)) by (rewrite H; now left).
        unfold glob_logs in Hin. now apply List.filter_In in Hin. }
      congruence.
    + rewrite glob_logs_cons, Hf. auto.
Qed.

Lemma os_remove_absent path d log0 :
  has_file path (os_remove (f_name log0) d) = true -> has_file path d = true.
Proof.
  induction d as [|f d IH]; simpl; [auto|].
  destruct (String.eqb (f_name f) (f_name log0)); simpl.
  - intros ->. now rewrite orb_true_r.
  - destruct (String.eqb (f_name f) path); simpl; auto.
Qed.

Lemma append_file_old path text d :
  has_file path d = true ->
  length (glob_logs (append_file path text d)) = length (glob_logs d).
Proof.
  induction d as [|f d IH]; simpl; [discriminate|].
  destruct (String.eqb (f_name f) path) eqn:Hn; simpl.
  - intros _. rewrite !glob_logs_cons.
    apply String.eqb_eq in Hn.
    rewrite (is_log_name {| f_name := path; f_text := f_text f +:+ text |} f)
      by (simpl; congruence).
    now destruct (is_log f).
  - intros H. rewrite !glob_logs_cons. destruct (is_log f); simpl; auto.
Qed.

Lemma append_file_new path text d :
  has_file path d = false ->
  ends_with ".log" path = true ->
  length (glob_logs (append_file path text d)) = S (length (glob_logs d)).
Proof.
  intros H Hlog. induction d as [|f d IH]; simpl in *.
  - rewrite glob_logs_cons. unfold is_log. simpl f_name. now rewrite Hlog.
  - destruct (String.eqb (f_name f) path) eqn:Hn; simpl in *; [discriminate|].
    rewrite !glob_logs_cons. destruct (is_log f); simpl; auto.
Qed.

Lemma append_file_has path text d :
  has_file path (append_file path text d) = true.
Proof.
  induction d as [|f d IH]; simpl.
  - now rewrite String.eqb_refl.
  - destruct (String.eqb (f_name f) path) eqn:Hn; simpl.
    + now rewrite String.eqb_refl.
    + now rewrite Hn.
Qed.

Lemma append_file_text path text d :
  file_text path (append_file path text d) = file_text path d +:+ text.
Proof.
  induction d as [|f d IH]; simpl.
  - now rewrite String.eqb_refl.
  - destruct (String.eqb (f_name f) path) eqn:Hn; simpl.
    + now rewrite String.eqb_refl.
    + now rewrite Hn.
Qed.

Lemma append_file_le path text d :
  (length (glob_logs (append_file path text d)) <= S (length (glob_logs d)))%nat.
Proof.
  induction d as [|f d IH]; simpl.
  - rewrite glob_logs_cons. destruct (is_log _); simpl; lia.
  - destruct (String.eqb (f_name f) path) eqn:Hn.
    + rewrite !glob_logs_cons. apply String.eqb_eq in Hn.
      rewrite (is_log_name {| f_name := path; f_text := f_text f +:+ text |} f)
        by (simpl; congruence).
      destruct (is_log f); simpl; lia.
    + rewrite !glob_logs_cons. destruct (is_log f); simpl; lia.
Qed.

Lemma write_all_old path msgs d :
  has_file path d = true ->
  length (glob_logs (write_all path msgs d)) = length (glob_logs d).
Proof.
  unfold write_all. revert d. induction msgs as [|msg msgs IH]; intros d H.
  - reflexivity.
  - simpl. rewrite IH by apply append_file_has. now apply append_file_old.
Qed.

Lemma write_all_new path msgs d :
  has_file path d = false ->
  ends_with ".log" path = true ->
  msgs <> [] ->
  length (glob_logs (write_all path msgs d)) = S (length (glob_logs d)).
Proof.
  intros H Hlog Hm. destruct msgs as [|msg msgs]; [congruence|].
  unfold write_all. simpl.
  fold (write_all path msgs (append_file path (msg +:+ nl) d)).
  rewrite write_all_old by apply append_file_has.
  now apply append_file_new.
Qed.

Lemma write_all_le path msgs d :
  (length (glob_logs (write_all path msgs d)) <= S (length (glob_logs d)))%nat.
Proof.
  destruct msgs as [|msg msgs]; [simpl; lia|].
  unfold write_all. simpl.
  fold (write_all path msgs (append_file path (msg +:+ nl) d)).
  rewrite write_all_old by apply append_file_has.
  apply append_file_le.
Qed.

Lemma MasterLog_writes m msgs : forall e d,
  logFolder e = Some d ->
  exists e', for_each (MasterLog_write m) msgs e = (Ok tt, e') /\
             logFolder e' = Some (write_all (alertLogFile m) msgs d).
Proof.
  induction msgs as [|msg msgs IH]; intros e d H.
  - exists e. now split.
  - simpl. unfold bind at 1. unfold MasterLog_write at 1. run. rewrite H.
    run. apply IH. reflexivity.
Qed.

(** What [MasterLog.__init__] does to the folder, case by case. *)
Lemma MasterLog_init_spec stamp e :
  exists e1,
    MasterLog_init stamp e
    = (Ok {| alertLogFile := "alertLogFile_" +:+ stamp +:+ ".log" |}, e1) /\
    (exists d1, logFolder e1 = Some d1) /\
    (forall path, folder_has path e1 = true -> folder_has path e = true) /\
    ((length (log_files e) < 5)%nat -> log_files e1 = log_files e) /\
    ((5 <= length (log_files e))%nat ->
     S (length (log_files e1)) = length (log_files e)).
Proof.
  unfold MasterLog_init, log_files, folder_has. run.
  destruct (logFolder e) as [d|] eqn:Hd.
  - destruct (5 <=? Z.of_nat (length (glob_logs d)))%Z eqn:H5.
    + apply Z.leb_le in H5.
      destruct (glob_logs d) as [|log0 rest] eqn:Hg; [simpl in H5; lia|].
      run. eexists; split; [reflexivity|]. simpl.
      rewrite (os_remove_first_log _ _ _ Hg). simpl in H5.
      split; [eauto|]. split; [intros path; apply os_remove_absent|].
      split; intros; [exfalso|]; simpl in *; lia.
    + apply Z.leb_gt in H5. exists e. rewrite Hd.
      split; [reflexivity|]. split; [eauto|]. split; [auto|].
      split; intros; [reflexivity|lia].
  - run. eexists; split; [reflexivity|]. simpl.
    split; [eauto|]. split; [discriminate|].
    split; intros; [reflexivity|simpl in *; lia].
Qed.

End LogFolder.

(** ** AlertEntry and AlertLog *)
Section AlertLog.
Import Alerts.

Lemma string_app_assoc (a b c : string) : (a +:+ b) +:+ c = a +:+ b +:+ c.
Proof.
  induction a as [|x a IH]; [reflexivity|].
  change ((String x a +:+ b) +:+ c) with (String x ((a +:+ b) +:+ c)).
  now rewrite IH.
Qed.

Lemma string_app_nil_r (a : string) : a +:+ "" = a.
Proof.
  induction a as [|x a IH]; [reflexivity|].
  change (String x a +:+ "") with (String x (a +:+ "")). now rewrite IH.
Qed.

Lemma write_all_text path lines d :
  file_text path (write_all path lines d)
  = file_text path d +:+ String.concat "" (map (fun l => l +:+ nl) lines).
Proof.
  unfold write_all. revert d. induction lines as [|l lines IH]; intros d.
  - simpl. now rewrite string_app_nil_r.
  - cbn [foldl map]. rewrite IH, append_file_text, string_app_assoc.
    f_equal. destruct lines; simpl; [now rewrite string_app_nil_r|reflexivity].
Qed.

Lemma set_env_id w : set_env (env w) w = w.
Proof. now destruct w. Qed.

Lemma emit_all_nil path e : emit_all path [] e = e.
Proof.
  destruct e as [[d|] t ev]; unfold emit_all; simpl; now rewrite !app_nil_r.
Qed.

Lemma emit_all_cons path l lines e :
  emit_all path lines (emit_all path [l] e) = emit_all path (l :: lines) e.
Proof.
  destruct e as [[d|] t ev]; unfold emit_all; simpl;
    now rewrite <- !app_assoc.
Qed.

Lemma flush_entry_ok i w d :
  logFolder (env w) = Some d ->
  flush_entry i w
  = (Ok tt, set_env (emit_all (alertLogFile (master w)) [format_alert i]
                              (env w)) w).
Proof.
  intros H. unfold flush_entry, in_env, MasterLog_write, print. run.
  rewrite H. simpl. unfold emit_all, set_env, log_event, set_logFolder.
  simpl. rewrite H. simpl. now rewrite <- app_assoc.
Qed.

Lemma flush_entries_ok l : forall w d,
  logFolder (env w) = Some d ->
  for_each flush_entry l w
  = (Ok tt, set_env (emit_all (alertLogFile (master w)) (map format_alert l)
                              (env w)) w).
Proof.
  induction l as [|i l IH]; intros w d H.
  - simpl. now rewrite emit_all_nil, set_env_id.
  - cbn [for_each map]. erewrite bind_ok by (eapply flush_entry_ok; eauto).
    erewrite IH by (simpl; rewrite H; reflexivity).
    simpl. now rewrite emit_all_cons.
Qed.

Lemma flush_entry_no_folder i w :
  logFolder (env w) = None ->
  flush_entry i w = (Raise (FileNotFoundError (alertLogFile (master w))), w).
Proof.
  intros H. unfold flush_entry, in_env, MasterLog_write. run. rewrite H.
  simpl. now rewrite set_env_id.
Qed.

Lemma AlertLog_writes entries : forall w,
  for_each AlertLog_write entries w
  = (Ok tt, set_alertLog (alertLog w ++ entries) w).
Proof.
  induction entries as [|a entries IH]; intros w.
  - simpl. unfold ret. destruct w; unfold set_alertLog; simpl.
    now rewrite app_nil_r.
  - simpl. unfold bind. unfold AlertLog_write at 1. run. rewrite IH.
    unfold set_alertLog. simpl. now rewrite <- app_assoc.
Qed.

Lemma catalogue_lookup_ok w code entry :
  catalogue w !! code = Some entry ->
  catalogue_lookup code w = (Ok entry, w).
Proof. intros H. unfold catalogue_lookup. run. now rewrite H. Qed.

Lemma catalogue_lookup_missing w code :
  catalogue w !! code = None ->
  catalogue_lookup code w = (Raise (KeyError code), w).
Proof. intros H. unfold catalogue_lookup. run. now rewrite H. Qed.

(** Importing the module always succeeds, and the log folder exists from
    then on. *)
Lemma import_module_folder cat stamp e :
  exists w d,
    import_module cat stamp e = Ok w /\
    logFolder (env w) = Some d /\
    alertLog w = [] /\
    catalogue w = cat.
Proof.
  destruct (MasterLog_init_spec stamp e) as (e1 & Hinit & [d1 Hd1] & _).
  unfold import_module. rewrite Hinit. eexists _, d1.
  split; [reflexivity|]. now repeat split.
Qed.

End AlertLog.

(** ** Properties of the alert pipeline *)
Section AlertClaims.
Import Alerts.

(** C1, as the sources have it.  When the log folder holds at most five
    [.log] files, constructing a [MasterLog] and then writing any number of
    lines through it leaves at most five.  When it holds exactly five, the
    constructor removes one and creates none, so four are left; the file of
    the new run appears with the first [write], and if its name was not in
    the folder before, five files exist from then on. *)
Theorem rotation_keeps_five (e : Env) (stamp : string) (msgs : list string) :
  (length (log_files e) <= 5)%nat ->
  exists m e1 e2,
    MasterLog_init stamp e = (Ok m, e1) /\
    alertLogFile m = "alertLogFile_" +:+ stamp +:+ ".log" /\
    for_each (MasterLog_write m) msgs e1 = (Ok tt, e2) /\
    (length (log_files e2) <= 5)%nat /\
    (length (log_files e) = 5%nat ->
     length (log_files e1) = 4%nat /\
     (folder_has (alertLogFile m) e = false ->
      folder_has (alertLogFile m) e1 = false /\
      (msgs <> [] -> length (log_files e2) = 5%nat))).
Proof.
  intros Hle.
  destruct (MasterLog_init_spec stamp e) as (e1 & Hinit & [d1 Hd1] & Hhas & Hlt & Hge).
  destruct (MasterLog_writes {| alertLogFile := "alertLogFile_" +:+ stamp +:+ ".log" |}
              msgs e1 d1 Hd1) as (e2 & Hw & Hd2).
  set (m := {| alertLogFile := "alertLogFile_" +:+ stamp +:+ ".log" |}) in *.
  exists m, e1, e2.
  assert (Hlog : ends_with ".log" (alertLogFile m) = true).
  { simpl. rewrite <- string_app_assoc. apply ends_with_app. }
  assert (H1 : log_files e1 = glob_logs d1) by (unfold log_files; now rewrite Hd1).
  assert (H2 : log_files e2 = glob_logs (write_all (alertLogFile m) msgs d1))
    by (unfold log_files; now rewrite Hd2).
  split; [exact Hinit|]. split; [reflexivity|]. split; [exact Hw|].
  split.
  - rewrite H2.
    pose proof (write_all_le (alertLogFile m) msgs d1) as Hw1.
    rewrite <- H1 in Hw1.
    destruct (Nat.lt_ge_cases (length (log_files e)) 5) as [Hc|Hc].
    + rewrite (Hlt Hc) in Hw1. lia.
    + specialize (Hge Hc). lia.
  - intros H5. assert (Hc : (5 <= length (log_files e))%nat) by lia.
    specialize (Hge Hc). split; [lia|]. intros Hnew.
    assert (Hnew1 : folder_has (alertLogFile m) e1 = false).
    { destruct (folder_has (alertLogFile m) e1) eqn:Hf; [|reflexivity].
      apply Hhas in Hf. congruence. }
    split; [exact Hnew1|].
    intros Hm. rewrite H2. unfold folder_has in Hnew1. rewrite Hd1 in Hnew1.
    rewrite write_all_new by assumption. rewrite <- H1. lia.
Qed.

Lemma rotation_keeps_five_witness :
  let e := env_of [old_log "1"; old_log "2"; old_log "3"; old_log "4";
                   old_log "5"] in
  (length (log_files e) <= 5)%nat /\
  exists m e1 e2,
    MasterLog_init "2024.01.01.00.00.06" e = (Ok m, e1) /\
    alertLogFile m = "alertLogFile_2024.01.01.00.00.06.log" /\
    for_each (MasterLog_write m) ["first"; "second"] e1 = (Ok tt, e2) /\
    (length (log_files e2) <= 5)%nat /\
    (length (log_files e) = 5%nat ->
     length (log_files e1) = 4%nat /\
     (folder_has (alertLogFile m) e = false ->
      folder_has (alertLogFile m) e1 = false /\
      (["first"; "second"] <> [] -> length (log_files e2) = 5%nat))).
Proof.
  intros e. split; [vm_compute; lia|].
  apply (rotation_keeps_five e "2024.01.01.00.00.06" ["first"; "second"]).
  vm_compute; lia.
Defined.

(** C1 as stated fails twice.  With the five files of five earlier runs in
    the folder, the constructor of the sixth run leaves four files and the
    file of the sixth run does not exist yet.  With six files in the folder,
    a seventh run that writes one line leaves six. *)
Lemma rotation_counterexample :
  (exists m e1,
     MasterLog_init "2024.01.01.00.00.06"
       (env_of [old_log "1"; old_log "2"; old_log "3"; old_log "4";
                old_log "5"]) = (Ok m, e1) /\
     length (log_files e1) = 4%nat /\
     folder_has (alertLogFile m) e1 = false) /\
  (exists m e1 e2,
     MasterLog_init "2024.01.01.00.00.07"
       (env_of [old_log "1"; old_log "2"; old_log "3"; old_log "4";
                old_log "5"; old_log "6"]) = (Ok m, e1) /\
     MasterLog_write m "line" e1 = (Ok tt, e2) /\
     length (log_files e2) = 6%nat).
Proof.
  split.
  - eexists _, _. split; [vm_compute; reflexivity|].
    split; vm_compute; reflexivity.
  - eexists _, _, _. split; [vm_compute; reflexivity|].
    split; vm_compute; reflexivity.
Qed.

(** C7.  For a code of the catalogue, [AlertEntry.__init__] succeeds and
    the entry carries the category, the message and the URL of the
    catalogue's entry for that code (and its [code] field, the name of the
    logger and the context object); the world is left as it was. *)
Theorem AlertEntry_copies_catalogue (w : World) (name : string) (code : Z)
    (obj : PyVal) (entry : CatalogueEntry) :
  catalogue w !! code = Some entry ->
  exists a,
    AlertEntry_init name code obj w = (Ok a, w) /\
    ae_cat a = c_cat entry /\
    ae_msg a = c_msg entry /\
    ae_url a = c_url entry /\
    ae_code a = c_code entry /\
    ae_name a = name /\
    ae_obj a = obj.
Proof.
  intros H. eexists. split.
  - unfold AlertEntry_init.
    rewrite !(bind_ok _ _ _ _ _ (catalogue_lookup_ok w code entry H)).
    reflexivity.
  - repeat split.
Qed.

Lemma AlertEntry_copies_catalogue_witness :
  catalogue sample_world !! 2001 = Some entry_2001 /\
  exists a,
    AlertEntry_init "Builder" 2001 (PyStr "TextComponent1") sample_world
    = (Ok a, sample_world) /\
    ae_cat a = c_cat entry_2001 /\
    ae_msg a = c_msg entry_2001 /\
    ae_url a = c_url entry_2001 /\
    ae_code a = c_code entry_2001 /\
    ae_name a = "Builder" /\
    ae_obj a = PyStr "TextComponent1".
Proof.
  split; [reflexivity|].
  apply (AlertEntry_copies_catalogue sample_world "Builder" 2001
           (PyStr "TextComponent1") entry_2001).
  reflexivity.
Defined.

Lemma AlertLog_flush_ok w d :
  logFolder (env w) = Some d ->
  AlertLog_flush w
  = (Ok tt, set_alertLog []
              (set_env (emit_all (alertLogFile (master w))
                                 (map format_alert (alertLog w)) (env w)) w)).
Proof.
  intros H. unfold AlertLog_flush.
  rewrite (bind_ok _ _ w (alertLog w) w) by reflexivity.
  erewrite bind_ok by (eapply flush_entries_ok; eauto).
  reflexivity.
Qed.

Lemma AlertLog_flush_empty w :
  alertLog w = [] -> AlertLog_flush w = (Ok tt, w).
Proof.
  intros H. unfold AlertLog_flush.
  rewrite (bind_ok _ _ w (alertLog w) w) by reflexivity.
  rewrite H. simpl. run. destruct w; simpl in *. now subst.
Qed.

(** C8.  With an empty buffer [AlertLog.flush] returns and changes nothing:
    no file is written, nothing is printed, no effect is recorded and the
    buffer stays empty.  A flush that returns leaves the buffer empty, so
    flushing again right after any flush gives the same outcome and the
    same world as the first flush. *)
Theorem flush_empty_noop (w : World) :
  (alertLog w = [] -> AlertLog_flush w = (Ok tt, w)) /\
  (forall w', AlertLog_flush w = (Ok tt, w') -> alertLog w' = []) /\
  AlertLog_flush (snd (AlertLog_flush w)) = AlertLog_flush w.
Proof.
  split; [apply AlertLog_flush_empty|].
  destruct (logFolder (env w)) as [d|] eqn:Hd.
  - rewrite (AlertLog_flush_ok w d Hd). split.
    + now intros w' [= <-].
    + simpl. now rewrite AlertLog_flush_empty.
  - destruct (alertLog w) as [|i l] eqn:Hl.
    + rewrite (AlertLog_flush_empty w Hl). split.
      * now intros w' [= <-].
      * simpl. now rewrite AlertLog_flush_empty.
    + assert (Hr : AlertLog_flush w
                   = (Raise (FileNotFoundError (alertLogFile (master w))), w)).
      { unfold AlertLog_flush.
        rewrite (bind_ok _ _ w (alertLog w) w) by reflexivity.
        rewrite Hl. cbn [for_each].
        erewrite bind_raise; [reflexivity|].
        erewrite bind_raise; [reflexivity|].
        now apply flush_entry_no_folder. }
      rewrite Hr. split; [discriminate|]. simpl. exact Hr.
Qed.

Lemma flush_empty_noop_witness :
  alertLog sample_world = [] /\
  AlertLog_flush sample_world = (Ok tt, sample_world).
Proof.
  split; [reflexivity|].
  apply (proj1 (flush_empty_noop sample_world)). reflexivity.
Defined.

(** C2.  Whatever the buffer holds and whatever entries are then written to
    it, [flush] returns and sends one formatted line per entry, in the
    order in which the entries were written: for each entry the line goes
    to the file of the [MasterLog] first and to the terminal next, the file
    grows by the lines in that order, and the buffer is empty afterwards.
    The log folder exists, as it does once the module is imported. *)
Theorem flush_in_insertion_order (w : World) (d : list File)
    (entries : list AlertEntry) :
  logFolder (env w) = Some d ->
  let path := alertLogFile (master w) in
  let lines := map format_alert (alertLog w ++ entries) in
  exists w',
    (for_each AlertLog_write entries ;; AlertLog_flush) w = (Ok tt, w') /\
    alertLog w' = [] /\
    events (env w') = events (env w) ++
      flat_map (fun l => [Appended path (l +:+ nl); Printed l]) lines /\
    terminal (env w') = terminal (env w) ++ lines /\
    logFolder (env w') = Some (write_all path lines d) /\
    file_text path (write_all path lines d)
    = file_text path d +:+ String.concat "" (map (fun l => l +:+ nl) lines) /\
    catalogue w' = catalogue w /\
    master w' = master w.
Proof.
  intros H path lines. eexists. split.
  - rewrite (bind_ok _ _ _ _ _ (AlertLog_writes entries w)).
    apply (AlertLog_flush_ok _ d). exact H.
  - simpl. rewrite H. simpl. repeat split. apply write_all_text.
Qed.

Lemma flush_in_insertion_order_witness :
  let A := sample_entry "Builder" "A" in
  let B := sample_entry "Coder" "B" in
  let C := sample_entry "Builder" "C" in
  let w := sample_world in
  let d := [old_log "1"] in
  logFolder (env w) = Some d /\
  let path := alertLogFile (master w) in
  let lines := map format_alert (alertLog w ++ [A; B; C]) in
  exists w',
    (for_each AlertLog_write [A; B; C] ;; AlertLog_flush) w = (Ok tt, w') /\
    alertLog w' = [] /\
    events (env w') = events (env w) ++
      flat_map (fun l => [Appended path (l +:+ nl); Printed l]) lines /\
    terminal (env w') = terminal (env w) ++ lines /\
    logFolder (env w') = Some (write_all path lines d) /\
    file_text path (write_all path lines d)
    = file_text path d +:+ String.concat "" (map (fun l => l +:+ nl) lines) /\
    catalogue w' = catalogue w /\
    master w' = master w.
Proof.
  intros A B C w d. split; [reflexivity|].
  apply (flush_in_insertion_order w d [A; B; C]). reflexivity.
Defined.

End AlertClaims.

(** ** Handlers *)
Section Handlers.
Import Warnings.

Lemma attrs_set_attrs self f w :
  attrs (set_attrs self f w) self = f (attrs w self).
Proof. unfold attrs at 1, set_attrs. simpl. now rewrite lookup_insert_eq. Qed.

Lemma printed_nil w : printed [] w = w.
Proof. destruct w; unfold printed; simpl. now rewrite !app_nil_r. Qed.

Lemma for_each_print l : forall w,
  for_each print l w = (Ok tt, printed l w).
Proof.
  induction l as [|x l IH]; intros w.
  - simpl. now rewrite printed_nil.
  - simpl. unfold bind. unfold print at 1. run. rewrite IH.
    unfold printed. simpl. now rewrite <- !app_assoc.
Qed.

Lemma getattr_ok {A} self (field : Handler -> option A) attr w v :
  field (attrs w self) = Some v -> getattr self field attr w = (Ok v, w).
Proof. intros H. unfold getattr. run. now rewrite H. Qed.

Lemma getattr_missing {A} self (field : Handler -> option A) attr w :
  field (attrs w self) = None ->
  getattr self field attr w = (Raise (AttributeError attr), w).
Proof. intros H. unfold getattr. run. now rewrite H. Qed.

Lemma flush_pending self w l :
  errList (attrs w self) = Some l ->
  flush self w = (Ok tt, set_attrs self (set_errList []) (printed l w)).
Proof.
  intros H. unfold flush. run. rewrite H. run. now rewrite for_each_print.
Qed.

Lemma flush_no_list self w :
  errList (attrs w self) = None -> flush self w = (Ok tt, w).
Proof. intros H. unfold flush. run. now rewrite H. Qed.

Lemma unsetStdErr_other self w :
  sys_stderr w <> HandlerObj self -> unsetStdErr self w = (Ok tt, w).
Proof.
  intros H. unfold unsetStdErr. run.
  destruct (decide (HandlerObj self = sys_stderr w)); [congruence|reflexivity].
Qed.

Lemma unsetStdErr_current self w t :
  sys_stderr w = HandlerObj self ->
  origErr (attrs w self) = Some t ->
  unsetStdErr self w = bind_stderr t w.
Proof.
  intros H Ho. unfold unsetStdErr, getattr. run.
  destruct (decide (HandlerObj self = sys_stderr w)); [|congruence].
  now rewrite Ho.
Qed.

Lemma unsetStdErr_no_orig self w :
  sys_stderr w = HandlerObj self ->
  origErr (attrs w self) = None ->
  unsetStdErr self w = (Raise (AttributeError "origErr"), w).
Proof.
  intros H Ho. unfold unsetStdErr, getattr. run.
  destruct (decide (HandlerObj self = sys_stderr w)); [|congruence].
  now rewrite Ho.
Qed.

End Handlers.

(** ** What each method of a handler does *)
Section Methods.
Import Warnings.

#[local] Arguments attrs : simpl never.
#[local] Arguments set_attrs : simpl never.
#[local] Arguments printed : simpl never.

Lemma attrs_printed l w self : attrs (printed l w) self = attrs w self.
Proof. reflexivity. Qed.

Lemma setStdErr_spec self w :
  exists w1,
    setStdErr self w = (Ok tt, w1) /\
    sys_stderr w1 = HandlerObj self /\
    attrs w1 self = set_origErr (sys_stderr w) (attrs w self) /\
    stdout w1 = stdout w /\
    log w1 = log w /\
    events w1 = events w ++ [StdErrBound (HandlerObj self)].
Proof.
  unfold setStdErr, bind_stderr. run. eexists. split; [reflexivity|].
  simpl. repeat split.
  unfold attrs at 1. simpl. unfold set_attrs. simpl.
  now rewrite lookup_insert_eq.
Qed.

Lemma bind_stderr_spec t w :
  exists w',
    bind_stderr t w = (Ok tt, w') /\
    sys_stderr w' = t /\
    heap w' = heap w /\
    stdout w' = stdout w /\
    log w' = log w /\
    events w' = events w ++ [StdErrBound t].
Proof. unfold bind_stderr. run. eexists. now repeat split. Qed.

Lemma receiveWarning_spec self code obj msg trace w l :
  errList (attrs w self) = Some l ->
  receiveWarning self code obj msg trace w
  = (Ok tt, set_attrs self (set_errList (l ++ [Warned code obj msg trace])) w).
Proof.
  intros H. unfold receiveWarning.
  erewrite bind_ok by (apply getattr_ok; eauto). reflexivity.
Qed.

Lemma receiveWarning_no_list self code obj msg trace w :
  errList (attrs w self) = None ->
  receiveWarning self code obj msg trace w
  = (Raise (AttributeError "errList"), w).
Proof.
  intros H. unfold receiveWarning.
  erewrite bind_raise; [reflexivity|]. now apply getattr_missing.
Qed.

Lemma write_spec self text w l :
  errList (attrs w self) = Some l ->
  let w1 := set_attrs self (set_errList (l ++ [Raw text])) w in
  write self text w
  = match autoFlush (attrs w self) with
    | Some true =>
        (Ok tt, set_attrs self (set_errList []) (printed (l ++ [Raw text]) w1))
    | Some false => (Ok tt, w1)
    | None => (Raise (AttributeError "autoFlush"), w1)
    end.
Proof.
  intros H w1. unfold write.
  erewrite bind_ok by (apply getattr_ok; eauto).
  rewrite (bind_ok _ _ w tt w1) by reflexivity.
  assert (Ha : autoFlush (attrs w1 self) = autoFlush (attrs w self)).
  { unfold w1. now rewrite attrs_set_attrs. }
  destruct (autoFlush (attrs w self)) as [[|]|] eqn:Hauto.
  - erewrite bind_ok by (apply getattr_ok; eauto).
    apply flush_pending. unfold w1. now rewrite attrs_set_attrs.
  - erewrite bind_ok by (apply getattr_ok; eauto). reflexivity.
  - erewrite bind_raise; [reflexivity|]. now apply getattr_missing.
Qed.

Lemma write_no_list self text w :
  errList (attrs w self) = None ->
  write self text w = (Raise (AttributeError "errList"), w).
Proof.
  intros H. unfold write.
  erewrite bind_raise; [reflexivity|]. now apply getattr_missing.
Qed.

Lemma self_bound_set_errList self l w :
  self_bound self w -> self_bound self (set_attrs self (set_errList l) w).
Proof.
  intros [H1 H2]. split; [exact H1|]. now rewrite attrs_set_attrs.
Qed.

Lemma self_bound_printed self l w :
  self_bound self w -> self_bound self (printed l w).
Proof. intros [H1 H2]. now split. Qed.

Lemma self_bound_flush self w :
  self_bound self w -> self_bound self (snd (flush self w)).
Proof.
  intros H. destruct (errList (attrs w self)) as [l|] eqn:Hl.
  - rewrite (flush_pending self w l Hl). simpl.
    now apply self_bound_set_errList, self_bound_printed.
  - now rewrite (flush_no_list self w Hl).
Qed.

Lemma self_bound_unsetStdErr self w :
  self_bound self w -> unsetStdErr self w = bind_stderr (HandlerObj self) w /\
  self_bound self (snd (unsetStdErr self w)).
Proof.
  intros [H1 H2]. rewrite (unsetStdErr_current self w _ H1 H2).
  split; [reflexivity|]. now split.
Qed.

Lemma self_bound_setStdErr self w :
  sys_stderr w = HandlerObj self -> self_bound self (snd (setStdErr self w)).
Proof.
  intros H. destruct (setStdErr_spec self w) as (w1 & -> & Hs & Ha & _).
  simpl. split; [exact Hs|]. rewrite Ha. simpl. now rewrite H.
Qed.

Lemma self_bound_call self c w :
  self_bound self w -> self_bound self (snd (call self c w)).
Proof.
  intros H. destruct c as [| | |code obj msg trace|text|]; simpl.
  - apply self_bound_setStdErr, H.
  - now apply self_bound_unsetStdErr.
  - now apply self_bound_flush.
  - destruct (errList (attrs w self)) as [l|] eqn:Hl.
    + rewrite (receiveWarning_spec _ _ _ _ _ _ l Hl). simpl.
      now apply self_bound_set_errList.
    + now rewrite receiveWarning_no_list.
  - destruct (errList (attrs w self)) as [l|] eqn:Hl.
    + rewrite (write_spec _ _ _ l Hl).
      destruct (autoFlush (attrs w self)) as [[|]|]; simpl;
        repeat first [apply self_bound_set_errList | apply self_bound_printed];
        exact H.
    + now rewrite write_no_list.
  - unfold __del__, del_with, bind.
    pose proof (self_bound_flush self w H) as Hf.
    destruct (flush self w) as [[[]|e] w1]; simpl in Hf; [|exact Hf].
    now apply self_bound_unsetStdErr.
Qed.

Lemma self_bound_after_calls self cs : forall w,
  self_bound self w -> self_bound self (after_calls self cs w).
Proof.
  unfold after_calls. induction cs as [|c cs IH]; intros w H; [exact H|].
  simpl. apply IH. now apply self_bound_call.
Qed.

End Methods.

(** ** Properties of the handlers *)
Section HandlerClaims.
Import Warnings.

#[local] Arguments attrs : simpl never.
#[local] Arguments set_attrs : simpl never.
#[local] Arguments printed : simpl never.

(** C6.  Whatever the standard error is bound to, [setStdErr] binds it to
    the handler and remembers the previous target, and [unsetStdErr] right
    after binds it to that target again.  [unsetStdErr] changes nothing
    when the handler is not the current target, and binds the standard
    error to the remembered target when it is. *)
Theorem install_uninstall_restores (w : World) (self : nat) :
  (exists w1 w2,
     setStdErr self w = (Ok tt, w1) /\
     sys_stderr w1 = HandlerObj self /\
     origErr (attrs w1 self) = Some (sys_stderr w) /\
     unsetStdErr self w1 = (Ok tt, w2) /\
     sys_stderr w2 = sys_stderr w) /\
  (sys_stderr w <> HandlerObj self -> unsetStdErr self w = (Ok tt, w)) /\
  (forall t, sys_stderr w = HandlerObj self ->
             origErr (attrs w self) = Some t ->
             exists w', unsetStdErr self w = (Ok tt, w') /\
                        sys_stderr w' = t).
Proof.
  split; [|split].
  - destruct (setStdErr_spec self w) as (w1 & Hset & Hs & Ha & _).
    assert (Ho : origErr (attrs w1 self) = Some (sys_stderr w))
      by now rewrite Ha.
    destruct (bind_stderr_spec (sys_stderr w) w1) as (w2 & Hb & Hs2 & _).
    exists w1, w2. repeat split; try assumption.
    now rewrite (unsetStdErr_current self w1 _ Hs Ho).
  - apply unsetStdErr_other.
  - intros t Hs Ho. rewrite (unsetStdErr_current self w t Hs Ho).
    destruct (bind_stderr_spec t w) as (w' & Hb & Hs' & _). eauto.
Qed.

(** C10.  When the handler is already the current target, [setStdErr]
    makes the handler its own remembered target.  From then on every
    [unsetStdErr] returns and binds the standard error to the handler
    again, and after any series of calls on the handler the standard error
    is still bound to it: the target from before the first install is not
    restored. *)
Theorem reentrant_install_loses_target (w : World) (self : nat) (n : nat)
    (cs : list Call) :
  sys_stderr w = HandlerObj self ->
  exists w1,
    setStdErr self w = (Ok tt, w1) /\
    sys_stderr w1 = HandlerObj self /\
    origErr (attrs w1 self) = Some (HandlerObj self) /\
    (exists wn,
       for_each unsetStdErr (repeat self n) w1 = (Ok tt, wn) /\
       sys_stderr wn = HandlerObj self /\
       origErr (attrs wn self) = Some (HandlerObj self)) /\
    sys_stderr (after_calls self cs w1) = HandlerObj self.
Proof.
  intros H. pose proof (self_bound_setStdErr self w H) as Hb.
  destruct (setStdErr_spec self w) as (w1 & Hset & _).
  rewrite Hset in Hb. simpl in Hb. exists w1.
  split; [exact Hset|]. split; [apply Hb|]. split; [apply Hb|]. split.
  - clear Hset H. revert w1 Hb. induction n as [|n IH]; intros w1 Hb.
    + exists w1. split; [reflexivity|]. exact Hb.
    + destruct (self_bound_unsetStdErr self w1 Hb) as [Hu Hb'].
      destruct (bind_stderr_spec (HandlerObj self) w1) as (w2 & Hw2 & _).
      rewrite Hu, Hw2 in Hb'. simpl in Hb'.
      destruct (IH w2 Hb') as (wn & Hn & Hbn). exists wn.
      split; [|exact Hbn]. cbn [repeat for_each].
      rewrite (bind_ok _ _ w1 tt w2) by now rewrite Hu. exact Hn.
  - now apply self_bound_after_calls.
Qed.

Lemma reentrant_install_loses_target_witness :
  let w := world_after (ErrorHandler_init 0%nat) in
  sys_stderr w = HandlerObj 0%nat /\
  exists w1,
    setStdErr 0%nat w = (Ok tt, w1) /\
    sys_stderr w1 = HandlerObj 0%nat /\
    origErr (attrs w1 0%nat) = Some (HandlerObj 0%nat) /\
    (exists wn,
       for_each unsetStdErr (repeat 0%nat 3) w1 = (Ok tt, wn) /\
       sys_stderr wn = HandlerObj 0%nat /\
       origErr (attrs wn 0%nat) = Some (HandlerObj 0%nat)) /\
    sys_stderr (after_calls 0%nat [CallUnsetStdErr; CallDel] w1)
    = HandlerObj 0%nat.
Proof.
  intros w. split; [reflexivity|].
  apply (reentrant_install_loses_target w 0%nat 3 [CallUnsetStdErr; CallDel]).
  reflexivity.
Defined.

Lemma flush_spec self w :
  let pending := default [] (errList (attrs w self)) in
  exists w1,
    flush self w = (Ok tt, w1) /\
    stdout w1 = stdout w ++ pending /\
    events w1 = events w ++ map Printed pending /\
    errList (attrs w1 self) = (fun _ => []) <$> errList (attrs w self) /\
    origErr (attrs w1 self) = origErr (attrs w self) /\
    sys_stderr w1 = sys_stderr w /\
    log w1 = log w.
Proof.
  destruct (errList (attrs w self)) as [l|] eqn:Hl; simpl.
  - rewrite (flush_pending self w l Hl). eexists. split; [reflexivity|].
    rewrite attrs_set_attrs. simpl. now repeat split.
  - rewrite (flush_no_list self w Hl). exists w. rewrite Hl.
    now rewrite !app_nil_r.
Qed.

(** C4, as the sources have it.  [__del__] flushes first: the pending
    records are printed in order and the list is cleared.  It then restores
    the standard error when the handler is the current target.  It returns
    when the handler is not the current target, and when it is and has a
    remembered previous target, as it has after [setStdErr].  It catches
    nothing: when the handler is the current target and remembers no
    previous target, the [AttributeError] leaves [__del__], after the
    flush; and in a subclass whose [flush] raises, the exception leaves
    [__del__] and the standard error is not restored. *)
Theorem teardown_flushes_then_restores (w : World) (self : nat) :
  let pending := default [] (errList (attrs w self)) in
  exists w1,
    flush self w = (Ok tt, w1) /\
    stdout w1 = stdout w ++ pending /\
    events w1 = events w ++ map Printed pending /\
    errList (attrs w1 self) = (fun _ => []) <$> errList (attrs w self) /\
    (sys_stderr w <> HandlerObj self -> __del__ self w = (Ok tt, w1)) /\
    (forall t, sys_stderr w = HandlerObj self ->
               origErr (attrs w self) = Some t ->
               exists w2,
                 __del__ self w = (Ok tt, w2) /\
                 sys_stderr w2 = t /\
                 stdout w2 = stdout w ++ pending /\
                 events w2 = events w ++ map Printed pending
                                      ++ [StdErrBound t]) /\
    (sys_stderr w = HandlerObj self ->
     origErr (attrs w self) = None ->
     __del__ self w = (Raise (AttributeError "origErr"), w1)) /\
    (forall (flush_method : nat -> M World unit) e w',
       flush_method self w = (Raise e, w') ->
       del_with flush_method self w = (Raise e, w')).
Proof.
  intros pending.
  destruct (flush_spec self w) as (w1 & Hf & Hout & Hev & Hl & Ho & Hs & _).
  exists w1. split; [exact Hf|]. split; [exact Hout|]. split; [exact Hev|].
  split; [exact Hl|].
  unfold __del__, del_with. rewrite (bind_ok _ _ w tt w1 Hf).
  split; [|split; [|split]].
  - intros H. apply unsetStdErr_other. congruence.
  - intros t H Hsome.
    rewrite (unsetStdErr_current self w1 t) by congruence.
    destruct (bind_stderr_spec t w1) as (w2 & Hb & Hs2 & _ & Hout2 & _ & Hev2).
    exists w2. split; [exact Hb|]. split; [exact Hs2|].
    split; [now rewrite Hout2, Hout|].
    rewrite Hev2, Hev. now rewrite <- app_assoc.
  - intros H Hnone. apply unsetStdErr_no_orig; congruence.
  - intros flush_method e w' Hr. now apply bind_raise.
Qed.

(** C4 as stated fails: a handler to which the standard error was bound by
    assignment has no remembered target, and its [__del__] raises. *)
Lemma teardown_counterexample :
  let w := world_after bound_by_assignment in
  sys_stderr w = HandlerObj 0%nat /\
  exists w', __del__ 0%nat w = (Raise (AttributeError "origErr"), w').
Proof.
  intros w. split; [reflexivity|]. eexists. vm_compute. reflexivity.
Qed.

(** C9, as the sources have it.  For a handler that has its list:
    [receiveWarning] appends a structured record and prints nothing;
    [write] appends a raw record, and then, when [autoFlush] is set, as it
    is from [__init__] on, flushes at once, so that every pending record
    and the new one are printed in order and the list is empty when
    [write] returns; when [autoFlush] is not set the raw record stays
    pending and nothing is printed; [flush] prints the pending records in
    order and clears the list. *)
Theorem handler_accumulates (w : World) (self : nat) (l : list ErrItem) :
  errList (attrs w self) = Some l ->
  (forall code obj msg trace,
     exists w',
       receiveWarning self code obj msg trace w = (Ok tt, w') /\
       errList (attrs w' self) = Some (l ++ [Warned code obj msg trace]) /\
       stdout w' = stdout w) /\
  (forall text,
     autoFlush (attrs w self) = Some false ->
     exists w',
       write self text w = (Ok tt, w') /\
       errList (attrs w' self) = Some (l ++ [Raw text]) /\
       stdout w' = stdout w) /\
  (forall text,
     autoFlush (attrs w self) = Some true ->
     exists w',
       write self text w = (Ok tt, w') /\
       errList (attrs w' self) = Some [] /\
       stdout w' = stdout w ++ l ++ [Raw text]) /\
  (exists w',
     flush self w = (Ok tt, w') /\
     errList (attrs w' self) = Some [] /\
     stdout w' = stdout w ++ l).
Proof.
  intros H. split; [|split; [|split]].
  - intros code obj msg trace.
    rewrite (receiveWarning_spec _ _ _ _ _ _ l H). eexists.
    split; [reflexivity|]. now rewrite attrs_set_attrs.
  - intros text Ha. rewrite (write_spec _ _ _ l H), Ha. eexists.
    split; [reflexivity|]. now rewrite attrs_set_attrs.
  - intros text Ha. rewrite (write_spec _ _ _ l H), Ha. eexists.
    split; [reflexivity|]. now rewrite attrs_set_attrs.
  - rewrite (flush_pending self w l H). eexists.
    split; [reflexivity|]. now rewrite attrs_set_attrs.
Qed.

Lemma handler_accumulates_witness :
  let w := world_after (__init__ 0%nat) in
  errList (attrs w 0%nat) = Some [] /\
  (forall text,
     autoFlush (attrs w 0%nat) = Some true ->
     exists w',
       write 0%nat text w = (Ok tt, w') /\
       errList (attrs w' 0%nat) = Some [] /\
       stdout w' = stdout w ++ [] ++ [Raw text]).
Proof.
  intros w. split; [reflexivity|].
  apply (handler_accumulates w 0%nat []). reflexivity.
Defined.

(** C9 as stated fails: on a handler as [__init__] leaves it, a structured
    record and then a text are received and [flush] is not called, yet both
    have been printed and nothing is pending when [write] returns. *)
Lemma accumulate_counterexample :
  let w := world_after
    (__init__ 0%nat ;;
     receiveWarning 0%nat 2002 PyNone "Syntax error compiling" ["frame"] ;;
     write 0%nat "Traceback (most recent call last):") in
  errList (attrs w 0%nat) = Some [] /\
  stdout w = [Warned 2002 PyNone "Syntax error compiling" ["frame"];
              Raw "Traceback (most recent call last):"].
Proof. intros w. split; vm_compute; reflexivity. Qed.

Lemma concat_cons (x : string) (l : list string) :
  String.concat "" (x :: l) = x +:+ String.concat "" l.
Proof. destruct l; simpl; [now rewrite string_app_nil_r|reflexivity]. Qed.

Lemma foldl_append (l : list string) : forall acc,
  foldl (fun acc entry => acc +:+ entry) acc l = acc +:+ String.concat "" l.
Proof.
  induction l as [|x l IH]; intros acc.
  - simpl. now rewrite string_app_nil_r.
  - cbn [foldl]. now rewrite IH, concat_cons, string_app_assoc.
Qed.

(** The first two statements of [warn]: the message and the trace. *)
Lemma warn_resolved w code obj msg trace m :
  message_of code msg = Some m ->
  warn code obj msg trace w
  = match sys_stderr w with
    | HandlerObj h => receiveWarning h code obj m (trace_of w trace) w
    | TextStream _ =>
        (logging WARNING (str_int code +:+ ": " +:+ m) ;;
         logging DEBUG
           (("Warning trace (" +:+ str_int code +:+ "):" +:+ nl) +:+
            String.concat "" (trace_of w trace))) w
    end.
Proof.
  unfold message_of, warn. intros Hm.
  assert (H1 : (if String.eqb msg "" then
                  match stdWarnings !! code with
                  | Some sw => ret (w_msg sw)
                  | None => raise (KeyError code)
                  end
                else ret msg) w = (Ok m, w)).
  { destruct (String.eqb msg "").
    - destruct (stdWarnings !! code); simpl in Hm; [|discriminate].
      now inversion Hm.
    - now inversion Hm. }
  rewrite (bind_ok _ _ w m w H1).
  assert (H2 : (match trace with
                | Some (entry :: rest) => ret (entry :: rest)
                | _ => stack <- gets call_stack ;; ret (removelast stack)
                end) w = (Ok (trace_of w trace), w)).
  { destruct trace as [[|entry rest]|]; reflexivity. }
  rewrite (bind_ok _ _ w _ w H2).
  rewrite (bind_ok _ _ w (sys_stderr w) w) by reflexivity.
  destruct (sys_stderr w); [|reflexivity].
  now rewrite foldl_append.
Qed.

(** C5.  For a call of [warn] whose message is [m], the override or the
    one of the code in [stdWarnings], and whose trace is [t], the one given
    or the current stack.  When the standard error is a handler, [warn] is
    the call of its [receiveWarning] with the code, the object, [m] and
    [t]; nothing is logged and nothing is printed, and a handler that has
    its list gets the record at the end of it.  Otherwise [warn] returns
    after logging two texts and doing nothing else: at [warning] level the
    code, a colon and [m], at [debug] level the heading with the code
    followed by the entries of [t]. *)
Theorem warn_dispatch (w : World) (code : Z) (obj : PyVal) (msg : string)
    (trace : option (list string)) (m : string) :
  message_of code msg = Some m ->
  let t := trace_of w trace in
  (forall h,
     sys_stderr w = HandlerObj h ->
     warn code obj msg trace w = receiveWarning h code obj m t w /\
     log (snd (warn code obj msg trace w)) = log w /\
     events (snd (warn code obj msg trace w)) = events w /\
     stdout (snd (warn code obj msg trace w)) = stdout w /\
     (forall l,
        errList (attrs w h) = Some l ->
        exists w',
          warn code obj msg trace w = (Ok tt, w') /\
          errList (attrs w' h) = Some (l ++ [Warned code obj m t]))) /\
  (forall name,
     sys_stderr w = TextStream name ->
     exists w',
       warn code obj msg trace w = (Ok tt, w') /\
       log w' = log w ++
         [(WARNING, str_int code +:+ ": " +:+ m);
          (DEBUG, ("Warning trace (" +:+ str_int code +:+ "):" +:+ nl) +:+
                  String.concat "" t)] /\
       events w' = events w ++
         [Logged WARNING (str_int code +:+ ": " +:+ m);
          Logged DEBUG (("Warning trace (" +:+ str_int code +:+ "):" +:+ nl)
                        +:+ String.concat "" t)] /\
       heap w' = heap w /\
       stdout w' = stdout w /\
       sys_stderr w' = sys_stderr w).
Proof.
  intros Hm t. rewrite (warn_resolved w code obj msg trace m Hm). split.
  - intros h Hs. rewrite Hs. split; [reflexivity|].
    destruct (errList (attrs w h)) as [l|] eqn:Hl.
    + rewrite (receiveWarning_spec _ _ _ _ _ _ l Hl). simpl.
      repeat split. intros l' [= <-]. eexists. split; [reflexivity|].
      now rewrite attrs_set_attrs.
    + rewrite (receiveWarning_no_list _ _ _ _ _ _ Hl). simpl.
      repeat split. discriminate.
  - intros name Hs. rewrite Hs. unfold logging. run. eexists.
    split; [reflexivity|]. simpl. rewrite <- !app_assoc. now repeat split.
Qed.

Lemma warn_dispatch_witness :
  message_of 2002 "" = Some "Syntax error compiling" /\
  exists w',
    warn 2002 PyNone "" None fresh_world = (Ok tt, w') /\
    log w' = [(WARNING, "2002: Syntax error compiling");
              (DEBUG, "Warning trace (2002):" +:+ nl +:+
                      "  File main.py, line 1, in <module>" +:+ nl)].
Proof.
  split; [reflexivity|].
  destruct (warn_dispatch fresh_world 2002 PyNone "" None
              "Syntax error compiling" eq_refl) as [_ H].
  destruct (H "<stderr>" eq_refl) as (w' & Hw & Hlog & _).
  exists w'. split; [exact Hw|]. rewrite Hlog. reflexivity.
Defined.

(** C3.  For a code that the catalogue does not have, [AlertEntry.__init__]
    raises [KeyError] and so does [AlertLogger.write], which leaves the
    [AlertLog], the log folder and the terminal as they were.  For a code
    that [stdWarnings] does not have, [warn] without an override message
    raises [KeyError] and leaves everything as it was: nothing is logged or
    handed to a handler. *)
Theorem unknown_code_fails (aw : Alerts.World) (ww : World)
    (logger : Alerts.AlertLogger) (code : Z) (obj : PyVal)
    (trace : option (list string)) :
  (Alerts.catalogue aw !! code = None ->
   Alerts.AlertEntry_init (Alerts.name logger) code obj aw
   = (Raise (KeyError code), aw) /\
   Alerts.AlertLogger_write logger code obj aw
   = (Raise (KeyError code), aw)) /\
  (stdWarnings !! code = None ->
   warn code obj "" trace ww = (Raise (KeyError code), ww)).
Proof.
  split.
  - intros H.
    assert (Hi : Alerts.AlertEntry_init (Alerts.name logger) code obj aw
                 = (Raise (KeyError code), aw)).
    { unfold Alerts.AlertEntry_init.
      erewrite bind_raise; [reflexivity|].
      now apply catalogue_lookup_missing. }
    split; [exact Hi|]. unfold Alerts.AlertLogger_write.
    erewrite bind_raise; [reflexivity|]. exact Hi.
  - intros H. unfold warn. erewrite bind_raise; [reflexivity|].
    simpl. now rewrite H.
Qed.

Lemma unknown_code_fails_witness :
  (Alerts.catalogue sample_world !! 9999 = None /\
   Alerts.AlertLogger_write {| Alerts.name := "Builder" |} 9999
     (PyClass "object") sample_world
   = (Raise (KeyError 9999), sample_world)) /\
  (stdWarnings !! 9999 = None /\
   warn 9999 PyNone "" None fresh_world
   = (Raise (KeyError 9999), fresh_world)).
Proof.
  pose proof (unknown_code_fails sample_world fresh_world
                {| Alerts.name := "Builder" |} 9999 (PyClass "object") None)
    as [Ha _].
  pose proof (unknown_code_fails sample_world fresh_world
                {| Alerts.name := "Builder" |} 9999 PyNone None)
    as [_ Hw].
  split; (split; [reflexivity|]).
  - apply Ha. reflexivity.
  - apply Hw. reflexivity.
Defined.

End HandlerClaims.

(** ** Further properties of the alert pipeline *)
Section AlertExtras.
Import Alerts.

#[local] Arguments glob_logs : simpl never.
#[local] Arguments is_log : simpl never.

Lemma first_log_split d log0 rest :
  glob_logs d = log0 :: rest ->
  exists pre post,
    d = pre ++ log0 :: post /\
    Forall (fun f => is_log f = false) pre /\
    is_log log0 = true /\
    os_remove (f_name log0) d = pre ++ post.
Proof.
  induction d as [|f d IH]; [discriminate|].
  rewrite glob_logs_cons. destruct (is_log f) eqn:Hf.
  - intros [= <- <-]. exists [], d. simpl. rewrite String.eqb_refl.
    repeat split; [constructor|exact Hf].
  - intros H. destruct (IH H) as (pre & post & -> & Hpre & Hl & Hrm).
    exists (f :: pre), post. split; [reflexivity|].
    split; [now constructor|]. split; [exact Hl|].
    cbn [os_remove]. destruct (String.eqb (f_name f) (f_name log0)) eqn:Hn.
    + apply String.eqb_eq in Hn. apply is_log_name in Hn. congruence.
    + simpl. now rewrite Hrm.
Qed.

(** X1.  With five or more [.log] files in the folder, the constructor of
    [MasterLog] removes the first [.log] file of the listing, whatever its
    name or age: the files listed before it are not [.log] files, they and
    the files after it stay, in order, and nothing else changes. *)
Theorem rotation_removes_first_listed (e : Env) (d : list File)
    (stamp : string) :
  logFolder e = Some d ->
  (5 <= length (glob_logs d))%nat ->
  exists pre log0 post e1,
    d = pre ++ log0 :: post /\
    Forall (fun f => is_log f = false) pre /\
    is_log log0 = true /\
    MasterLog_init stamp e
    = (Ok {| alertLogFile := "alertLogFile_" +:+ stamp +:+ ".log" |}, e1) /\
    logFolder e1 = Some (pre ++ post) /\
    terminal e1 = terminal e /\
    events e1 = events e ++ [Removed (f_name log0)].
Proof.
  intros Hd H5. unfold MasterLog_init. run. rewrite Hd.
  destruct (glob_logs d) as [|log0 rest] eqn:Hg; [simpl in H5; lia|].
  destruct (first_log_split d log0 rest Hg) as (pre & post & Hsplit & Hpre & Hl & Hrm).
  assert (Hz : (5 <=? Z.of_nat (length (log0 :: rest)))%Z = true)
    by (apply Z.leb_le; lia).
  rewrite Hz. run. exists pre, log0, post. eexists.
  split; [exact Hsplit|]. split; [exact Hpre|]. split; [exact Hl|].
  split; [reflexivity|]. simpl. now rewrite Hrm.
Qed.

Lemma rotation_removes_first_listed_witness :
  let d := [ {| f_name := "notes.txt"; f_text := "" |};
             old_log "5"; old_log "1"; old_log "2"; old_log "3";
             old_log "4" ] in
  logFolder (env_of d) = Some d /\
  (5 <= length (glob_logs d))%nat /\
  exists pre log0 post e1,
    d = pre ++ log0 :: post /\
    Forall (fun f => is_log f = false) pre /\
    is_log log0 = true /\
    MasterLog_init "2024.01.01.00.00.06" (env_of d)
    = (Ok {| alertLogFile := "alertLogFile_2024.01.01.00.00.06.log" |}, e1) /\
    logFolder e1 = Some (pre ++ post) /\
    terminal e1 = terminal (env_of d) /\
    events e1 = events (env_of d) ++ [Removed (f_name log0)].
Proof.
  intros d. split; [reflexivity|]. split; [vm_compute; lia|].
  apply (rotation_removes_first_listed (env_of d) d "2024.01.01.00.00.06").
  - reflexivity.
  - vm_compute; lia.
Defined.




Lemma append_file_other path text d other :
  other <> path ->
  file_text other (append_file path text d) = file_text other d /\
  has_file other (append_file path text d) = has_file other d.
Proof.
  intros Hne. induction d as [|f d [IH1 IH2]]; simpl.
  - assert (Hq : String.eqb path other = false)
      by (apply String.eqb_neq; congruence).
    now rewrite Hq.
  - destruct (String.eqb (f_name f) path) eqn:Hn; simpl.
    + apply String.eqb_eq in Hn.
      assert (Hq : String.eqb path other = false)
        by (apply String.eqb_neq; congruence).
      assert (Hq' : String.eqb (f_name f) other = false)
        by (apply String.eqb_neq; congruence).
      now rewrite Hq, Hq'.
    + now rewrite IH1, IH2.
Qed.

(** X3.  [MasterLog.write] only ever adds to the end of the file of the
    run: with the folder present it returns, the text of that file is the
    text it had (none if the file was missing) followed by the message and a
    line feed, every other file keeps its text, no file disappears and
    nothing is printed.  With the folder missing it raises
    [FileNotFoundError] and changes nothing; it does not create the
    folder. *)
Theorem MasterLog_write_appends (self : MasterLog) (msg : string) (e : Env) :
  (forall d,
     logFolder e = Some d ->
     exists e' d',
       MasterLog_write self msg e = (Ok tt, e') /\
       logFolder e' = Some d' /\
       file_text (alertLogFile self) d'
       = file_text (alertLogFile self) d +:+ msg +:+ nl /\
       has_file (alertLogFile self) d' = true /\
       (forall other,
          other <> alertLogFile self ->
          file_text other d' = file_text other d /\
          has_file other d' = has_file other d) /\
       terminal e' = terminal e) /\
  (logFolder e = None ->
   MasterLog_write self msg e
   = (Raise (FileNotFoundError (alertLogFile self)), e)).
Proof.
  unfold MasterLog_write. run. split.
  - intros d Hd. rewrite Hd. run. eexists _, _.
    split; [reflexivity|]. simpl. split; [reflexivity|].
    split; [apply append_file_text|]. split; [apply append_file_has|].
    split; [|reflexivity]. intros other Hne. now apply append_file_other.
  - intros Hd. now rewrite Hd.
Qed.

Lemma MasterLog_write_appends_witness :
  let self := {| alertLogFile := "alertLogFile_2024.01.01.00.00.01.log" |} in
  let d := [old_log "1"; old_log "2"] in
  logFolder (env_of d) = Some d /\
  exists e' d',
    MasterLog_write self "first" (env_of d) = (Ok tt, e') /\
    logFolder e' = Some d' /\
    file_text (alertLogFile self) d'
    = file_text (alertLogFile self) d +:+ "first" +:+ nl /\
    has_file (alertLogFile self) d' = true /\
    (forall other,
       other <> alertLogFile self ->
       file_text other d' = file_text other d /\
       has_file other d' = has_file other d) /\
    terminal e' = terminal (env_of d).
Proof.
  intros self d. split; [reflexivity|].
  apply (proj1 (MasterLog_write_appends self "first" (env_of d)) d).
  reflexivity.
Defined.

(** X4.  When the log folder is missing and the buffer is not empty,
    [AlertLog.flush] raises [FileNotFoundError] at the first entry: nothing
    is printed and the buffer keeps all its entries. *)
Theorem flush_missing_folder_keeps_buffer (w : World) :
  logFolder (env w) = None ->
  alertLog w <> [] ->
  AlertLog_flush w
  = (Raise (FileNotFoundError (alertLogFile (master w))), w).
Proof.
  intros Hd Hl. destruct (alertLog w) as [|i l] eqn:Ha; [congruence|].
  unfold AlertLog_flush.
  rewrite (bind_ok _ _ w (alertLog w) w) by reflexivity.
  rewrite Ha. cbn [for_each].
  erewrite bind_raise; [reflexivity|].
  erewrite bind_raise; [reflexivity|].
  now apply flush_entry_no_folder.
Qed.

Lemma flush_missing_folder_keeps_buffer_witness :
  let w := {| env := {| logFolder := None; terminal := []; events := [] |};
              catalogue := sample_catalogue;
              alertLog := [sample_entry "Builder" "A"];
              master := {| alertLogFile := "run.log" |} |} in
  logFolder (env w) = None /\
  alertLog w <> [] /\
  AlertLog_flush w = (Raise (FileNotFoundError "run.log"), w).
Proof.
  intros w. split; [reflexivity|]. split; [discriminate|].
  apply (flush_missing_folder_keeps_buffer w); [reflexivity|discriminate].
Defined.

Lemma AlertLogger_write_ok w logger code obj entry :
  catalogue w !! code = Some entry ->
  AlertLogger_write logger code obj w
  = (Ok tt, set_alertLog (alertLog w ++ [entry_for entry (name logger) obj])
                         w).
Proof.
  intros H. unfold AlertLogger_write.
  assert (Hi : AlertEntry_init (name logger) code obj w
               = (Ok (entry_for entry (name logger) obj), w)).
  { unfold AlertEntry_init.
    rewrite !(bind_ok _ _ _ _ _ (catalogue_lookup_ok w code entry H)).
    reflexivity. }
  rewrite (bind_ok _ _ _ _ _ Hi). reflexivity.
Qed.

(** X5.  From an empty buffer, one [write] of a logger with a code of the
    catalogue followed by [flush] prints exactly one line, which names the
    logger, the [code] field, the category and the message of the
    catalogue entry and the component; the same line and a line feed go to
    the end of the log file, and the buffer is empty again. *)
Theorem write_then_flush_one_line (w : World) (logger : AlertLogger)
    (code : Z) (obj : PyVal) (entry : CatalogueEntry) (d : list File) :
  catalogue w !! code = Some entry ->
  alertLog w = [] ->
  logFolder (env w) = Some d ->
  let line :=
    "AlertLogger: " +:+ name logger +:+ " | " +:+
    "Code: " +:+ str_int (c_code entry) +:+ " | " +:+
    "Category: " +:+ c_cat entry +:+ " | " +:+
    "Message: " +:+ c_msg entry +:+ " | " +:+
    "Component: " +:+ py_str obj in
  exists w',
    (AlertLogger_write logger code obj ;; AlertLogger_flush logger) w
    = (Ok tt, w') /\
    terminal (env w') = terminal (env w) ++ [line] /\
    logFolder (env w')
    = Some (append_file (alertLogFile (master w)) (line +:+ nl) d) /\
    alertLog w' = [] /\
    catalogue w' = catalogue w.
Proof.
  intros Hc Hl Hd line. eexists. split.
  - rewrite (bind_ok _ _ _ _ _ (AlertLogger_write_ok w logger code obj entry Hc)).
    unfold AlertLogger_flush. apply (AlertLog_flush_ok _ d). exact Hd.
  - simpl. rewrite Hl, Hd. simpl. now repeat split.
Qed.

Lemma write_then_flush_one_line_witness :
  let logger := {| name := "Builder" |} in
  catalogue sample_world !! 2001 = Some entry_2001 /\
  alertLog sample_world = [] /\
  logFolder (env sample_world) = Some [old_log "1"] /\
  exists w',
    (AlertLogger_write logger 2001 (PyStr "TextComponent1") ;;
     AlertLogger_flush logger) sample_world = (Ok tt, w') /\
    terminal (env w')
    = ["AlertLogger: Builder | Code: 2001 | Category: Builder | Message: Unrecognised value | Component: TextComponent1"] /\
    alertLog w' = [].
Proof.
  intros logger. split; [reflexivity|]. split; [reflexivity|].
  split; [reflexivity|].
  destruct (write_then_flush_one_line sample_world logger 2001
              (PyStr "TextComponent1") entry_2001 [old_log "1"]
              eq_refl eq_refl eq_refl) as (w' & Hrun & Ht & _ & Hl & _).
  exists w'. split; [exact Hrun|]. split; [|exact Hl].
  rewrite Ht. reflexivity.
Defined.

Lemma do_writes_ok calls : forall w,
  Forall (fun c => catalogue w !! wc_code c = Some (wc_entry c)) calls ->
  for_each do_write calls w
  = (Ok tt, set_alertLog (alertLog w ++ map written calls) w).
Proof.
  induction calls as [|c calls IH]; intros w H.
  - simpl. unfold ret. destruct w; unfold set_alertLog; simpl.
    now rewrite app_nil_r.
  - inversion H as [|? ? Hc Hrest]; subst. cbn [for_each map].
    unfold do_write at 1.
    rewrite (bind_ok _ _ _ _ _ (AlertLogger_write_ok w _ _ _ _ Hc)).
    rewrite IH by exact Hrest.
    unfold set_alertLog, written. simpl. now rewrite <- app_assoc.
Qed.

(** X6.  Loggers share one buffer.  A series of [write] calls of any
    loggers, each with a code of the catalogue, adds one entry per call at
    the end of the buffer, in the order of the calls and each under the
    name of its own logger, and touches neither the folder nor the
    terminal; the [flush] of any logger then prints the lines of all of
    them in that order and empties the buffer. *)
Theorem loggers_share_buffer (w : World) (calls : list WriteCall)
    (d : list File) (flusher : AlertLogger) :
  Forall (fun c => catalogue w !! wc_code c = Some (wc_entry c)) calls ->
  logFolder (env w) = Some d ->
  exists w1 w2,
    for_each do_write calls w = (Ok tt, w1) /\
    alertLog w1 = alertLog w ++ map written calls /\
    map ae_name (map written calls)
    = map (fun c => name (wc_logger c)) calls /\
    env w1 = env w /\
    AlertLogger_flush flusher w1 = (Ok tt, w2) /\
    terminal (env w2)
    = terminal (env w) ++ map format_alert (alertLog w ++ map written calls) /\
    alertLog w2 = [].
Proof.
  intros Hc Hd. eexists _, _. split; [now apply do_writes_ok|].
  split; [reflexivity|]. split.
  { rewrite map_map. reflexivity. }
  split; [reflexivity|]. split.
  - unfold AlertLogger_flush. apply (AlertLog_flush_ok _ d). exact Hd.
  - simpl. now split.
Qed.

Lemma loggers_share_buffer_witness :
  let call source component :=
    {| wc_logger := {| name := source |}; wc_code := 2001;
       wc_obj := PyStr component; wc_entry := entry_2001 |} in
  let calls := [call "Builder" "A"; call "Coder" "B"; call "Builder" "C"] in
  Forall (fun c => catalogue sample_world !! wc_code c = Some (wc_entry c))
         calls /\
  logFolder (env sample_world) = Some [old_log "1"] /\
  exists w1 w2,
    for_each do_write calls sample_world = (Ok tt, w1) /\
    map ae_name (alertLog w1) = ["Builder"; "Coder"; "Builder"] /\
    AlertLogger_flush {| name := "Coder" |} w1 = (Ok tt, w2) /\
    alertLog w2 = [].
Proof.
  intros call calls.
  assert (Hf : Forall (fun c => catalogue sample_world !! wc_code c
                                = Some (wc_entry c)) calls)
    by (repeat constructor).
  split; [exact Hf|]. split; [reflexivity|].
  destruct (loggers_share_buffer sample_world calls [old_log "1"]
              {| name := "Coder" |} Hf eq_refl)
    as (w1 & w2 & H1 & Hl & _ & _ & H2 & _ & He).
  exists w1, w2. split; [exact H1|]. split; [now rewrite Hl|].
  split; [exact H2|exact He].
Defined.


End AlertExtras.

(** ** Further properties of the handlers *)
Section HandlerExtras.
Import Warnings.

#[local] Arguments attrs : simpl never.
#[local] Arguments set_attrs : simpl never.
#[local] Arguments printed : simpl never.

Lemma attrs_set_attrs_other self other f w :
  other <> self -> attrs (set_attrs self f w) other = attrs w other.
Proof.
  intros H. unfold attrs, set_attrs. simpl.
  now rewrite lookup_insert_ne by congruence.
Qed.

Lemma setStdErr_other self other w :
  other <> self -> attrs (snd (setStdErr self w)) other = attrs w other.
Proof.
  intros H. unfold setStdErr, bind_stderr. run.
  unfold attrs at 1. simpl. unfold set_attrs. simpl.
  now rewrite lookup_insert_ne by congruence.
Qed.

(** X8.  With an override message that is not empty, [warn] does not look
    the code up: it never raises [KeyError], whatever the code, and the
    override is the message that is logged, on a text stream, or queued,
    on a handler that has its list. *)
Theorem warn_override_accepts_any_code (w : World) (code : Z) (obj : PyVal)
    (msg : string) (trace : option (list string)) :
  msg <> "" ->
  (forall name,
     sys_stderr w = TextStream name ->
     exists w',
       warn code obj msg trace w = (Ok tt, w') /\
       log w' = log w ++
         [(WARNING, str_int code +:+ ": " +:+ msg);
          (DEBUG, ("Warning trace (" +:+ str_int code +:+ "):" +:+ nl) +:+
                  String.concat "" (trace_of w trace))]) /\
  (forall h l,
     sys_stderr w = HandlerObj h ->
     errList (attrs w h) = Some l ->
     exists w',
       warn code obj msg trace w = (Ok tt, w') /\
       errList (attrs w' h)
       = Some (l ++ [Warned code obj msg (trace_of w trace)]) /\
       log w' = log w).
Proof.
  intros Hm.
  assert (Hr : message_of code msg = Some msg).
  { unfold message_of. apply String.eqb_neq in Hm. now rewrite Hm. }
  rewrite (warn_resolved w code obj msg trace msg Hr). split.
  - intros name Hs. rewrite Hs. unfold logging. run. eexists.
    split; [reflexivity|]. simpl. now rewrite <- app_assoc.
  - intros h l Hs Hl. rewrite Hs.
    rewrite (receiveWarning_spec _ _ _ _ _ _ l Hl). eexists.
    split; [reflexivity|]. now rewrite attrs_set_attrs.
Qed.

Lemma warn_override_accepts_any_code_witness :
  "not in the catalogue" <> "" /\
  exists w',
    warn 9999 PyNone "not in the catalogue" None fresh_world = (Ok tt, w') /\
    log w' = [(WARNING, "9999: not in the catalogue");
              (DEBUG, "Warning trace (9999):" +:+ nl +:+
                      "  File main.py, line 1, in <module>" +:+ nl)].
Proof.
  split; [discriminate|].
  destruct (warn_override_accepts_any_code fresh_world 9999 PyNone
              "not in the catalogue" None) as [H _]; [discriminate|].
  destruct (H "<stderr>" eq_refl) as (w' & Hw & Hlog).
  exists w'. split; [exact Hw|]. rewrite Hlog. reflexivity.
Defined.

(** X9.  Two different handlers installed one after the other.  Uninstalled
    in the reverse order, they leave the standard error bound to what it
    was bound to before the first install.  Uninstalled in the order of
    the installs, the first [unsetStdErr] does nothing, because the first
    handler is not the current target, and the [unsetStdErr] of the second
    handler then binds the standard error to the first handler, which is
    current again; only one more [unsetStdErr] of the first handler
    brings back the original target. *)
Theorem nested_installs (w : World) (h1 h2 : nat) :
  h1 <> h2 ->
  exists w2,
    (setStdErr h1 ;; setStdErr h2) w = (Ok tt, w2) /\
    sys_stderr w2 = HandlerObj h2 /\
    (exists w',
       (unsetStdErr h2 ;; unsetStdErr h1) w2 = (Ok tt, w') /\
       sys_stderr w' = sys_stderr w) /\
    unsetStdErr h1 w2 = (Ok tt, w2) /\
    (exists w3 w4,
       unsetStdErr h2 w2 = (Ok tt, w3) /\
       sys_stderr w3 = HandlerObj h1 /\
       unsetStdErr h1 w3 = (Ok tt, w4) /\
       sys_stderr w4 = sys_stderr w).
Proof.
  intros Hne.
  destruct (setStdErr_spec h1 w) as (w1 & Hs1 & Hb1 & Ha1 & _).
  destruct (setStdErr_spec h2 w1) as (w2 & Hs2 & Hb2 & Ha2 & _).
  assert (Ho2 : origErr (attrs w2 h2) = Some (HandlerObj h1))
    by (rewrite Ha2; simpl; now rewrite Hb1).
  assert (Ho1 : origErr (attrs w2 h1) = Some (sys_stderr w)).
  { pose proof (setStdErr_other h2 h1 w1 Hne) as Hf.
    rewrite Hs2 in Hf. simpl in Hf. now rewrite Hf, Ha1. }
  destruct (bind_stderr_spec (HandlerObj h1) w2)
    as (w3 & Hb3 & Hs3 & Hh3 & _).
  assert (Hu2 : unsetStdErr h2 w2 = (Ok tt, w3))
    by now rewrite (unsetStdErr_current h2 w2 _ Hb2 Ho2).
  assert (Ho3 : origErr (attrs w3 h1) = Some (sys_stderr w))
    by (unfold attrs in *; now rewrite Hh3).
  destruct (bind_stderr_spec (sys_stderr w) w3) as (w4 & Hb4 & Hs4 & _).
  assert (Hu1 : unsetStdErr h1 w3 = (Ok tt, w4))
    by now rewrite (unsetStdErr_current h1 w3 _ Hs3 Ho3).
  exists w2. split; [now rewrite (bind_ok _ _ _ _ _ Hs1)|].
  split; [exact Hb2|]. split; [|split].
  - exists w4. split; [|exact Hs4]. now rewrite (bind_ok _ _ _ _ _ Hu2).
  - apply unsetStdErr_other. congruence.
  - exists w3, w4. now repeat split.
Qed.

Lemma nested_installs_witness :
  0%nat <> 1%nat /\
  exists w2,
    (setStdErr 0%nat ;; setStdErr 1%nat) fresh_world = (Ok tt, w2) /\
    sys_stderr w2 = HandlerObj 1%nat /\
    exists w',
      (unsetStdErr 1%nat ;; unsetStdErr 0%nat) w2 = (Ok tt, w') /\
      sys_stderr w' = TextStream "<stderr>".
Proof.
  split; [discriminate|].
  destruct (nested_installs fresh_world 0%nat 1%nat) as (w2 & H1 & H2 & H3 & _);
    [discriminate|].
  exists w2. split; [exact H1|]. split; [exact H2|exact H3].
Defined.

Lemma set_attrs_same self f w o :
  heap w !! self = Some o -> f o = o -> set_attrs self f w = w.
Proof.
  intros H Hf. unfold set_attrs, attrs. rewrite H. simpl. rewrite Hf.
  rewrite insert_id by exact H. now destruct w.
Qed.

Lemma flush_nothing_pending self w :
  errList (attrs w self) = None \/ errList (attrs w self) = Some [] ->
  flush self w = (Ok tt, w).
Proof.
  intros [H|H]; [now apply flush_no_list|].
  rewrite (flush_pending self w [] H), printed_nil.
  unfold attrs in H. destruct (heap w !! self) as [o|] eqn:Ho;
    [|discriminate].
  simpl in H. rewrite (set_attrs_same self _ w o Ho); [reflexivity|].
  destruct o; simpl in *. now subst.
Qed.

(** X10.  A flush of a handler that has nothing pending, or no list at
    all, leaves the world exactly as it is; and since a flush leaves
    nothing pending, a second flush right after any flush changes nothing
    and prints nothing. *)
Theorem handler_flush_idempotent (w : World) (self : nat) :
  (errList (attrs w self) = None \/ errList (attrs w self) = Some [] ->
   flush self w = (Ok tt, w)) /\
  flush self (snd (flush self w)) = (Ok tt, snd (flush self w)).
Proof.
  split; [apply flush_nothing_pending|].
  apply flush_nothing_pending.
  destruct (errList (attrs w self)) as [l|] eqn:Hl.
  - right. rewrite (flush_pending self w l Hl). simpl.
    now rewrite attrs_set_attrs.
  - left. now rewrite (flush_no_list self w Hl).
Qed.

Lemma handler_flush_idempotent_witness :
  let w := world_after (__init__ 0%nat) in
  (errList (attrs w 0%nat) = None \/ errList (attrs w 0%nat) = Some []) /\
  flush 0%nat w = (Ok tt, w).
Proof.
  intros w.
  assert (H : errList (attrs w 0%nat) = None \/
              errList (attrs w 0%nat) = Some []) by (right; reflexivity).
  split; [exact H|].
  apply (proj1 (handler_flush_idempotent w 0%nat)). exact H.
Defined.

(** X11.  Teardown of an object whose [__init__] never ran.  A handler
    without any attribute that is not the current target can be flushed
    and torn down without an exception and without any effect, thanks to
    the [hasattr] guard of [flush]; [write] and [receiveWarning] on it
    raise [AttributeError] and change nothing. *)
Theorem bare_handler_teardown (w : World) (self : nat) :
  attrs w self = bare ->
  sys_stderr w <> HandlerObj self ->
  flush self w = (Ok tt, w) /\
  __del__ self w = (Ok tt, w) /\
  (forall text,
     write self text w = (Raise (AttributeError "errList"), w)) /\
  (forall code obj msg trace,
     receiveWarning self code obj msg trace w
     = (Raise (AttributeError "errList"), w)).
Proof.
  intros Hb Hs.
  assert (Hl : errList (attrs w self) = None) by now rewrite Hb.
  pose proof (flush_no_list self w Hl) as Hf.
  split; [exact Hf|]. split; [|split].
  - unfold __del__, del_with. rewrite (bind_ok _ _ _ _ _ Hf).
    now apply unsetStdErr_other.
  - intros text. now apply write_no_list.
  - intros code obj msg trace. now apply receiveWarning_no_list.
Qed.

Lemma bare_handler_teardown_witness :
  attrs fresh_world 7%nat = bare /\
  sys_stderr fresh_world <> HandlerObj 7%nat /\
  __del__ 7%nat fresh_world = (Ok tt, fresh_world).
Proof.
  split; [reflexivity|]. split; [discriminate|].
  apply (bare_handler_teardown fresh_world 7%nat); [reflexivity|discriminate].
Defined.

Lemma ErrorHandler_init_spec self w :
  exists w1,
    ErrorHandler_init self w = (Ok tt, w1) /\
    sys_stderr w1 = HandlerObj self /\
    errList (attrs w1 self) = Some [] /\
    autoFlush (attrs w1 self) = Some true /\
    origErr (attrs w1 self) = Some (sys_stderr w) /\
    stdout w1 = stdout w /\
    log w1 = log w /\
    call_stack w1 = call_stack w.
Proof.
  unfold ErrorHandler_init.
  set (w0 := set_attrs self (fun o =>
    {| errList := Some []; autoFlush := Some true; origErr := origErr o |})
    w).
  assert (H0 : __init__ self w = (Ok tt, w0)) by reflexivity.
  rewrite (bind_ok _ _ _ _ _ H0).
  destruct (setStdErr_spec self w0) as (w1 & Hs & Hb & Ha & Hout & Hlog & _).
  assert (Hst : call_stack (snd (setStdErr self w0)) = call_stack w0)
    by reflexivity.
  rewrite Hs in Hst. simpl in Hst.
  exists w1. split; [exact Hs|]. split; [exact Hb|].
  rewrite Ha. unfold w0. rewrite attrs_set_attrs. simpl.
  repeat split; assumption.
Qed.

Lemma warn_queued self w c it l :
  sys_stderr w = HandlerObj self ->
  errList (attrs w self) = Some l ->
  record_of (call_stack w) c = Some it ->
  do_warn c w = (Ok tt, set_attrs self (set_errList (l ++ [it])) w).
Proof.
  intros Hs Hl Hr. unfold record_of in Hr. unfold do_warn.
  destruct (message_of (wn_code c) (wn_msg c)) as [m|] eqn:Hm;
    [|discriminate].
  rewrite (warn_resolved w _ _ _ _ m Hm), Hs.
  rewrite (receiveWarning_spec _ _ _ _ _ _ l Hl).
  inversion Hr; subst it. reflexivity.
Qed.

Lemma warns_queued self calls : forall w l items,
  sys_stderr w = HandlerObj self ->
  errList (attrs w self) = Some l ->
  Forall2 (fun c it => record_of (call_stack w) c = Some it) calls items ->
  exists w',
    for_each do_warn calls w = (Ok tt, w') /\
    sys_stderr w' = sys_stderr w /\
    errList (attrs w' self) = Some (l ++ items) /\
    origErr (attrs w' self) = origErr (attrs w self) /\
    stdout w' = stdout w /\
    log w' = log w.
Proof.
  induction calls as [|c calls IH]; intros w l items Hs Hl Hf.
  - inversion Hf; subst. exists w. rewrite app_nil_r. now repeat split.
  - inversion Hf as [|? it ? items' Hc Hrest]; subst.
    pose proof (warn_queued self w c it l Hs Hl Hc) as Hw.
    set (w1 := set_attrs self (set_errList (l ++ [it])) w) in *.
    assert (Hl1 : errList (attrs w1 self) = Some (l ++ [it]))
      by (unfold w1; now rewrite attrs_set_attrs).
    destruct (IH w1 (l ++ [it]) items' Hs Hl1 Hrest)
      as (w' & Hrun & Hs' & Hl' & Ho' & Hout' & Hlog').
    exists w'. cbn [for_each]. rewrite (bind_ok _ _ _ _ _ Hw).
    split; [exact Hrun|]. split; [exact Hs'|].
    split; [now rewrite Hl', <- app_assoc|].
    split; [|now split].
    rewrite Ho'. unfold w1. now rewrite attrs_set_attrs.
Qed.

(** X12.  The life of a handler.  [ErrorHandler()] installs the handler;
    the calls of [warn] made while it is installed, each with a message
    that resolves, are queued in the order of the calls and neither logged
    nor printed; [__del__] then prints the queued records in that order,
    leaves nothing pending and binds the standard error to what it was
    bound to before the handler was created. *)
Theorem handler_collects_until_teardown (w : World) (self : nat)
    (calls : list WarnCall) (items : list ErrItem) :
  Forall2 (fun c it => record_of (call_stack w) c = Some it) calls items ->
  exists w1 w2 w3,
    ErrorHandler_init self w = (Ok tt, w1) /\
    sys_stderr w1 = HandlerObj self /\
    for_each do_warn calls w1 = (Ok tt, w2) /\
    errList (attrs w2 self) = Some items /\
    stdout w2 = stdout w /\
    log w2 = log w /\
    __del__ self w2 = (Ok tt, w3) /\
    stdout w3 = stdout w ++ items /\
    errList (attrs w3 self) = Some [] /\
    sys_stderr w3 = sys_stderr w /\
    log w3 = log w.
Proof.
  intros Hf.
  destruct (ErrorHandler_init_spec self w)
    as (w1 & Hi & Hs1 & Hl1 & _ & Ho1 & Hout1 & Hlog1 & Hst1).
  rewrite <- Hst1 in Hf.
  destruct (warns_queued self calls w1 [] items Hs1 Hl1 Hf)
    as (w2 & Hrun & Hs2 & Hl2 & Ho2 & Hout2 & Hlog2).
  simpl in Hl2.
  destruct (flush_spec self w2)
    as (wf & Hfl & Houtf & _ & Hlf & Hof & Hsf & Hlogf).
  rewrite Hl2 in Houtf, Hlf. simpl in Houtf, Hlf.
  destruct (bind_stderr_spec (sys_stderr w) wf)
    as (w3 & Hb & Hs3 & Hh3 & Hout3 & Hlog3 & _).
  exists w1, w2, w3. split; [exact Hi|]. split; [exact Hs1|].
  split; [exact Hrun|]. split; [exact Hl2|].
  split; [congruence|]. split; [congruence|]. split.
  - unfold __del__, del_with. rewrite (bind_ok _ _ _ _ _ Hfl).
    rewrite (unsetStdErr_current self wf (sys_stderr w)); [exact Hb| |];
      congruence.
  - split; [congruence|]. split; [|split; [exact Hs3|congruence]].
    unfold attrs in *. now rewrite Hh3.
Qed.

Lemma handler_collects_until_teardown_witness :
  let calls :=
    [ {| wn_code := 2002; wn_obj := PyNone; wn_msg := "";
         wn_trace := Some ["frame"] |};
      {| wn_code := 9999; wn_obj := PyStr "stim"; wn_msg := "custom";
         wn_trace := None |} ] in
  let items :=
    [ Warned 2002 PyNone "Syntax error compiling" ["frame"];
      Warned 9999 (PyStr "stim") "custom"
        ["  File main.py, line 1, in <module>" +:+ nl] ] in
  Forall2 (fun c it => record_of (call_stack fresh_world) c = Some it)
          calls items /\
  exists w3,
    (ErrorHandler_init 0%nat ;; for_each do_warn calls ;; __del__ 0%nat)
      fresh_world = (Ok tt, w3) /\
    stdout w3 = items /\
    sys_stderr w3 = TextStream "<stderr>" /\
    log w3 = [].
Proof.
  intros calls items.
  assert (Hf : Forall2 (fun c it => record_of (call_stack fresh_world) c
                                    = Some it) calls items)
    by (repeat constructor).
  split; [exact Hf|].
  destruct (handler_collects_until_teardown fresh_world 0%nat calls items Hf)
    as (w1 & w2 & w3 & H1 & _ & H2 & _ & _ & _ & H3 & Hout & _ & Hs & Hlog).
  exists w3. split.
  - rewrite (bind_ok _ _ _ _ _ H1). rewrite (bind_ok _ _ _ _ _ H2). exact H3.
  - split; [exact Hout|]. split; [exact Hs|exact Hlog].
Defined.

Lemma elsewhere_same_refl self w : elsewhere_same self w w.
Proof. now split. Qed.

Lemma elsewhere_same_trans self w1 w2 w3 :
  elsewhere_same self w1 w2 -> elsewhere_same self w2 w3 ->
  elsewhere_same self w1 w3.
Proof.
  intros [Ha Hl] [Ha' Hl']. split; [|congruence].
  intros other Hne. now rewrite Ha', Ha.
Qed.

Lemma elsewhere_same_set_attrs self f w :
  elsewhere_same self w (set_attrs self f w).
Proof.
  split; [|reflexivity]. intros other Hne. now apply attrs_set_attrs_other.
Qed.

Lemma elsewhere_same_printed self l w : elsewhere_same self w (printed l w).
Proof. now split. Qed.

Lemma elsewhere_same_bind_stderr self t w :
  elsewhere_same self w (snd (bind_stderr t w)).
Proof. now split. Qed.

Lemma elsewhere_same_flush self w :
  elsewhere_same self w (snd (flush self w)).
Proof.
  destruct (errList (attrs w self)) as [l|] eqn:Hl.
  - rewrite (flush_pending self w l Hl). simpl.
    eapply elsewhere_same_trans; [apply (elsewhere_same_printed self l)|].
    apply elsewhere_same_set_attrs.
  - rewrite (flush_no_list self w Hl). apply elsewhere_same_refl.
Qed.

Lemma elsewhere_same_unsetStdErr self w :
  elsewhere_same self w (snd (unsetStdErr self w)).
Proof.
  destruct (decide (sys_stderr w = HandlerObj self)) as [Hs|Hs].
  - destruct (origErr (attrs w self)) as [t|] eqn:Ho.
    + rewrite (unsetStdErr_current self w t Hs Ho).
      apply elsewhere_same_bind_stderr.
    + rewrite (unsetStdErr_no_orig self w Hs Ho). apply elsewhere_same_refl.
  - rewrite (unsetStdErr_other self w Hs). apply elsewhere_same_refl.
Qed.

(** X13.  A call on a handler is local to it: whichever of [setStdErr],
    [unsetStdErr], [flush], [receiveWarning], [write] and [__del__] is
    called, and whether it returns or raises, every other handler keeps
    its pending records, its [autoFlush] and its remembered target, and
    nothing is sent to the logging facility. *)
Theorem handler_calls_are_local (w : World) (self : nat) (c : Call) :
  elsewhere_same self w (snd (call self c w)).
Proof.
  destruct c as [| | |code obj msg trace|text|]; simpl.
  - split; [|reflexivity]. intros other Hne. now apply setStdErr_other.
  - apply elsewhere_same_unsetStdErr.
  - apply elsewhere_same_flush.
  - destruct (errList (attrs w self)) as [l|] eqn:Hl.
    + rewrite (receiveWarning_spec _ _ _ _ _ _ l Hl).
      apply elsewhere_same_set_attrs.
    + rewrite (receiveWarning_no_list _ _ _ _ _ _ Hl).
      apply elsewhere_same_refl.
  - destruct (errList (attrs w self)) as [l|] eqn:Hl.
    + rewrite (write_spec _ _ _ l Hl).
      destruct (autoFlush (attrs w self)) as [[|]|]; simpl;
        try apply elsewhere_same_set_attrs.
      eapply elsewhere_same_trans; [apply elsewhere_same_set_attrs|].
      eapply elsewhere_same_trans; [apply elsewhere_same_printed|].
      apply elsewhere_same_set_attrs.
    + rewrite (write_no_list _ _ _ Hl). apply elsewhere_same_refl.
  - unfold __del__, del_with, bind.
    pose proof (elsewhere_same_flush self w) as Hf.
    destruct (flush self w) as [[[]|e] wf]; simpl in Hf; [|exact Hf].
    eapply elsewhere_same_trans; [exact Hf|].
    apply elsewhere_same_unsetStdErr.
Qed.

End HandlerExtras.

(** ** Strings *)
Section StringFacts.
Import PavloviaUI.

Lemma string_length_app (a b : string) :
  String.length (a +:+ b) = (String.length a + String.length b)%nat.
Proof.
  induction a as [|c a IH]; [reflexivity|].
  change (String c a +:+ b) with (String c (a +:+ b)). simpl. now rewrite IH.
Qed.

Lemma string_cons_app c (a b : string) :
  String c a +:+ b = String c (a +:+ b).
Proof. reflexivity. Qed.

Lemma starts_with_app pre r : starts_with pre (pre +:+ r) = true.
Proof.
  induction pre as [|c pre IH]; [reflexivity|].
  rewrite string_cons_app. simpl. now rewrite Ascii.eqb_refl, IH.
Qed.

Lemma starts_with_inv pre : forall s,
  starts_with pre s = true -> s = pre +:+ drop (String.length pre) s.
Proof.
  induction pre as [|c pre IH]; intros s H; [reflexivity|].
  destruct s as [|b s]; [discriminate|]. simpl in H.
  apply andb_true_iff in H as [Hc Hs]. apply Ascii.eqb_eq in Hc. subst b.
  rewrite string_cons_app. simpl. f_equal. now apply IH.
Qed.

Lemma find_first_Some sep : forall s before after,
  find_first sep s = Some (before, after) ->
  s = before +:+ sep +:+ after.
Proof.
  induction s as [|c s IH]; intros before after H.
  - simpl in H. destruct (starts_with sep "") eqn:Hs; [|discriminate].
    inversion H; subst. now apply starts_with_inv.
  - cbn [find_first] in H. destruct (starts_with sep (String c s)) eqn:Hs.
    + inversion H; subst. now apply starts_with_inv.
    + destruct (find_first sep s) as [[b a]|]; [|discriminate].
      inversion H; subst. rewrite string_cons_app. f_equal. now apply IH.
Qed.

Lemma find_first_occurs sep : forall before after,
  exists before' after',
    find_first sep (before +:+ sep +:+ after) = Some (before', after') /\
    (String.length before' <= String.length before)%nat.
Proof.
  induction before as [|c before IH]; intros after.
  - change ("" +:+ sep +:+ after) with (sep +:+ after).
    exists EmptyString. eexists.
    destruct (sep +:+ after) eqn:E; cbn [find_first];
      rewrite <- E, starts_with_app; split; [reflexivity|simpl; lia|
                                             reflexivity|simpl; lia].
  - rewrite string_cons_app. cbn [find_first].
    destruct (starts_with sep (String c (before +:+ sep +:+ after))).
    + eexists _, _. split; [reflexivity|simpl; lia].
    + destruct (IH after) as (b' & a' & -> & Hlen).
      eexists _, _. split; [reflexivity|simpl; lia].
Qed.

Lemma find_first_None sep s :
  find_first sep s = None <-> ~ occurs sep s.
Proof.
  split.
  - intros H (before & after & ->).
    destruct (find_first_occurs sep before after) as (b' & a' & Hf & _).
    congruence.
  - intros H. destruct (find_first sep s) as [[b a]|] eqn:Hf; [|reflexivity].
    exfalso. apply H. exists b, a. now apply find_first_Some.
Qed.

Lemma find_first_minimal sep s before after :
  sep <> EmptyString ->
  find_first sep s = Some (before, after) ->
  ~ occurs sep before.
Proof.
  intros Hsep Hf (b1 & b2 & ->).
  pose proof (find_first_Some _ _ _ _ Hf) as Hs. subst s.
  rewrite !string_app_assoc in Hf.
  destruct (find_first_occurs sep b1 (b2 +:+ sep +:+ after))
    as (b' & a' & Hf' & Hlen).
  rewrite Hf in Hf'. inversion Hf'; subst b'.
  rewrite !string_length_app in Hlen.
  destruct sep; [congruence|]. simpl in Hlen. lia.
Qed.

(** The first piece of [split], and that there is a second one exactly
    when the separator occurs. *)
Lemma split_bounded_head sep s bound :
  sep <> EmptyString ->
  (String.length s <= bound)%nat ->
  match find_first sep s with
  | None => split_bounded bound sep s = [s]
  | Some (before, after) =>
      exists bound',
        split_bounded bound sep s = before :: split_bounded bound' sep after /\
        (String.length after <= bound')%nat
  end.
Proof.
  intros Hsep Hlen. destruct bound as [|bound]; cbn [split_bounded];
    destruct (find_first sep s) as [[b a]|] eqn:Hf; try reflexivity.
  - exfalso. apply find_first_Some in Hf. subst s.
    rewrite !string_length_app in Hlen. destruct sep; [congruence|].
    simpl in Hlen. lia.
  - exists bound. split; [reflexivity|].
    apply find_first_Some in Hf. subst s.
    rewrite !string_length_app in Hlen. destruct sep; [congruence|].
    simpl in Hlen. lia.
Qed.

End StringFacts.

(** ** Properties of the Pavlovia dialogs *)
Section DialogExtras.
Import PavloviaUI.

Lemma param_sep_not_empty (paramName : string) :
  paramName +:+ "=" <> EmptyString /\
  String.eqb (paramName +:+ "=") "" = false.
Proof. destruct paramName; split; try discriminate; reflexivity. Qed.

Lemma split_first_two sep s :
  sep <> EmptyString ->
  String.eqb sep "" = false ->
  match find_first sep s with
  | None => split sep s = inr [s]
  | Some (before, after) =>
      exists rest,
        split sep s
        = inr (before ::
               match find_first sep after with
               | None => after
               | Some (mid, _) => mid
               end :: rest)
  end.
Proof.
  intros Hsep He. unfold split. rewrite He.
  pose proof (split_bounded_head sep s (String.length s) Hsep (le_n _)) as H.
  destruct (find_first sep s) as [[b a]|]; [|now rewrite H].
  destruct H as (bound' & -> & Hlen).
  pose proof (split_bounded_head sep a bound' Hsep Hlen) as H'.
  destruct (find_first sep a) as [[mid a']|].
  - destruct H' as (bound'' & -> & _). eauto.
  - rewrite H'. eauto.
Qed.

Lemma getParamFromURL_eval current paramName url :
  let sep := paramName +:+ "=" in
  let u := match url with None => current | Some u => u end in
  getParamFromURL current paramName url
  = match find_first sep u with
    | None => inl (Builtin IndexError)
    | Some (_, after) =>
        let second := match find_first sep after with
                      | None => after
                      | Some (mid, _) => mid
                      end in
        inr match find_first "&" second with
            | None => second
            | Some (first, _) => first
            end
    end.
Proof.
  intros sep u. unfold getParamFromURL. fold u. fold sep.
  destruct (param_sep_not_empty paramName) as [Hsep He].
  pose proof (split_first_two sep u Hsep He) as H.
  destruct (find_first sep u) as [[b a]|]; [|now rewrite H].
  destruct H as (rest & ->). cbv zeta.
  set (second := match find_first sep a with
                 | None => a
                 | Some (mid, _) => mid
                 end).
  pose proof (split_first_two "&" second) as H2.
  destruct (find_first "&" second) as [[x y]|].
  - destruct H2 as (rest2 & ->); [discriminate|reflexivity|reflexivity].
  - rewrite H2; [reflexivity|discriminate|reflexivity].
Qed.

(** X14.  [getParamFromURL] raises [IndexError] exactly when the name
    followed by an equals sign does not occur in the address, the one
    given or else the current one of the browser, and returns a value in
    every other case. *)
Theorem getParamFromURL_missing (current paramName : string)
    (url : option string) :
  let u := match url with None => current | Some u => u end in
  (~ occurs (paramName +:+ "=") u ->
   getParamFromURL current paramName url = inl (Builtin IndexError)) /\
  (occurs (paramName +:+ "=") u ->
   exists value, getParamFromURL current paramName url = inr value).
Proof.
  intros u. rewrite getParamFromURL_eval. fold u. split.
  - intros H. apply find_first_None in H. now rewrite H.
  - intros H. destruct (find_first (paramName +:+ "=") u) as [[b a]|] eqn:Hf.
    + eauto.
    + apply find_first_None in Hf. contradiction.
Qed.

Lemma getParamFromURL_missing_witness :
  ~ occurs ("code" +:+ "=") "https://pavlovia.org/#state=xyz" /\
  getParamFromURL "" "code" (Some "https://pavlovia.org/#state=xyz")
  = inl (Builtin IndexError).
Proof.
  assert (H : ~ occurs ("code" +:+ "=") "https://pavlovia.org/#state=xyz")
    by (apply find_first_None; reflexivity).
  split; [exact H|].
  apply (proj1 (getParamFromURL_missing "" "code"
                  (Some "https://pavlovia.org/#state=xyz"))).
  exact H.
Defined.

(** X15.  A value that [getParamFromURL] returns is the text that follows
    the first occurrence of the name and the equals sign in the address,
    up to the next ampersand, the next occurrence of the name and the
    equals sign, or the end: it contains neither. *)
Theorem getParamFromURL_value (current paramName : string)
    (url : option string) (value : string) :
  let sep := paramName +:+ "=" in
  let u := match url with None => current | Some u => u end in
  getParamFromURL current paramName url = inr value ->
  exists before after,
    u = before +:+ sep +:+ value +:+ after /\
    ~ occurs sep before /\
    ~ occurs "&" value /\
    ~ occurs sep value /\
    (after = EmptyString \/ starts_with "&" after = true \/
     starts_with sep after = true).
Proof.
  intros sep u. rewrite getParamFromURL_eval. fold u. fold sep.
  destruct (param_sep_not_empty paramName) as [Hsep _]. fold sep in Hsep.
  destruct (find_first sep u) as [[b a]|] eqn:Hf; [|discriminate].
  cbv zeta. intros Hv. injection Hv as Hv. subst value.
  pose proof (find_first_Some _ _ _ _ Hf) as Hu.
  pose proof (find_first_minimal _ _ _ _ Hsep Hf) as Hb.
  set (second := match find_first sep a with
                 | None => a
                 | Some (mid, _) => mid
                 end).
  assert (Hsec : ~ occurs sep second /\
                 exists tail, a = second +:+ tail /\
                   (tail = EmptyString \/ starts_with sep tail = true)).
  { unfold second. destruct (find_first sep a) as [[mid a']|] eqn:Ha.
    - split; [now apply (find_first_minimal _ _ _ _ Hsep Ha)|].
      exists (sep +:+ a'). split; [now apply find_first_Some|].
      right. apply starts_with_app.
    - split; [now apply find_first_None|].
      exists EmptyString. split; [now rewrite string_app_nil_r|now left]. }
  destruct Hsec as (Hns & tail & Ha & Htail).
  destruct (find_first "&" second) as [[x y]|] eqn:Hx.
  - pose proof (find_first_Some _ _ _ _ Hx) as Hs2.
    exists b, ("&" +:+ y +:+ tail). split.
    + rewrite Hu, Ha, Hs2. now rewrite !string_app_assoc.
    + split; [exact Hb|].
      assert (Hamp : "&" <> EmptyString) by discriminate.
      split; [apply (find_first_minimal _ _ _ _ Hamp Hx)|].
      split; [|right; left; reflexivity].
      intros (p & q & Hpq). apply Hns. exists p, (q +:+ "&" +:+ y).
      rewrite Hs2, Hpq. now rewrite !string_app_assoc.
  - exists b, tail. split; [now rewrite Hu, Ha|].
    split; [exact Hb|]. split; [now apply find_first_None|].
    split; [exact Hns|]. destruct Htail; auto.
Qed.

Lemma getParamFromURL_value_witness :
  let u := "https://pavlovia.org/#access_token=abc&token_type=bearer" in
  getParamFromURL "" "token" (Some u) = inr "abc" /\
  exists before after,
    u = before +:+ ("token" +:+ "=") +:+ "abc" +:+ after /\
    ~ occurs ("token" +:+ "=") before /\
    ~ occurs "&" "abc" /\
    ~ occurs ("token" +:+ "=") "abc" /\
    (after = EmptyString \/ starts_with "&" after = true \/
     starts_with ("token" +:+ "=") after = true).
Proof.
  intros u. split; [reflexivity|].
  apply (getParamFromURL_value "" "token" (Some u) "abc"). reflexivity.
Defined.

(** X16.  [getCommitMsg] never returns an empty message.  A blank title
    gives the message of one underscore, and the details are then left
    out even when there are some; otherwise the message is the title,
    followed by an empty line and the details when there are details. *)
Theorem getCommitMsg_never_empty (title descr : string) :
  getCommitMsg title descr <> EmptyString /\
  (title = EmptyString -> getCommitMsg title descr = "_") /\
  (title <> EmptyString -> descr = EmptyString ->
   getCommitMsg title descr = title) /\
  (title <> EmptyString -> descr <> EmptyString ->
   getCommitMsg title descr = title +:+ (nl +:+ nl) +:+ descr).
Proof.
  unfold getCommitMsg. split; [|split; [|split]].
  - destruct title as [|c title]; [discriminate|]. simpl.
    destruct (negb (String.eqb descr "")); discriminate.
  - now intros ->.
  - intros Ht ->. apply String.eqb_neq in Ht. now rewrite Ht.
  - intros Ht Hd. apply String.eqb_neq in Ht, Hd. now rewrite Ht, Hd.
Qed.

Lemma error_lines_shown rs : forall acc,
  error_lines acc (map shown_item rs)
  = inr (acc +:+ String.concat "" (flat_map shown_lines rs)).
Proof.
  induction rs as [|r rs IH]; intros acc.
  - simpl. now rewrite string_app_nil_r.
  - cbn [map error_lines shown_item]. rewrite last_snoc, IH.
    cbn [flat_map shown_lines app]. rewrite !concat_cons.
    now rewrite !string_app_assoc.
Qed.

(** X17.  For a list of structured records, each with a trace that is not
    empty, [getSringFromErrorList] returns four lines per record, in the
    order of the list: the code, the object, the message and the last
    frame of the trace.  The earlier frames of a trace do not appear. *)
Theorem error_list_shows_last_frame (rs : list Shown) :
  getSringFromErrorList (Records (map shown_item rs))
  = inr (String.concat "" (flat_map shown_lines rs)).
Proof. unfold getSringFromErrorList. apply error_lines_shown. Qed.

Lemma error_lines_bad rs : forall acc item rest err,
  (forall acc', error_lines acc' (item :: rest) = inl err) ->
  error_lines acc (map shown_item rs ++ item :: rest) = inl err.
Proof.
  induction rs as [|r rs IH]; intros acc item rest err H; [apply H|].
  cbn [map app error_lines shown_item]. rewrite last_snoc. now apply IH.
Qed.

(** X18.  One item that cannot be shown rejects the whole list.  When a
    list holds a text, such as the one that [write] of a handler queues,
    [getSringFromErrorList] raises [TypeError]; when it holds a structured
    record with an empty trace, it raises [IndexError]; this whatever
    comes before and after the item, and [IssuesRichText.write] then
    writes nothing, not even the records before the item.  A text that is
    not empty, given in place of a list, is rejected in the same way: the
    conversion subscripts its first character. *)
Theorem error_list_rejects_item (rs : list Shown)
    (rest : list Warnings.ErrItem) :
  (forall s,
     s <> EmptyString ->
     getSringFromErrorList (Text s) = inl TypeError /\
     write (Text s) = (Some TypeError, [MoveEnd])) /\
  (forall text,
     let items := map shown_item rs ++ Warnings.Raw text :: rest in
     getSringFromErrorList (Records items) = inl TypeError /\
     write (Records items) = (Some TypeError, [MoveEnd])) /\
  (forall code obj msg,
     let items := map shown_item rs ++ Warnings.Warned code obj msg [] :: rest in
     getSringFromErrorList (Records items) = inl (Builtin IndexError) /\
     write (Records items) = (Some (Builtin IndexError), [MoveEnd])).
Proof.
  split; [|split].
  - intros s Hs. destruct s; [congruence|]. now split.
  - intros text items.
    assert (H : getSringFromErrorList (Records items) = inl TypeError)
      by (apply error_lines_bad; reflexivity).
    split; [exact H|]. unfold write. now rewrite H.
  - intros code obj msg items.
    assert (H : getSringFromErrorList (Records items)
                = inl (Builtin IndexError))
      by (apply error_lines_bad; reflexivity).
    split; [exact H|]. unfold write. now rewrite H.
Qed.

Lemma replace_tabs_app (a b : string) :
  replace_tabs (a +:+ b) = replace_tabs a +:+ replace_tabs b.
Proof.
  induction a as [|c a IH]; [reflexivity|].
  rewrite string_cons_app. cbn [replace_tabs]. rewrite IH.
  destruct (Ascii.eqb c tab); [|reflexivity].
  now rewrite string_app_assoc.
Qed.

Lemma written_text_app (ops1 ops2 : list WidgetOp) :
  written_text (ops1 ++ ops2) = written_text ops1 +:+ written_text ops2.
Proof.
  induction ops1 as [|op ops1 IH]; [reflexivity|].
  destruct op; simpl; rewrite IH; try reflexivity.
  now rewrite string_app_assoc.
Qed.

Lemma written_text_line (line : string) :
  written_text (write_line line) = replace_tabs line.
Proof.
  unfold write_line.
  destruct (contains "200" (replace_tabs line));
    [|destruct (contains "100" (replace_tabs line))];
    simpl; now rewrite string_app_nil_r.
Qed.

Lemma written_text_lines (lines : list string) :
  written_text (flat_map write_line lines)
  = replace_tabs (String.concat "" lines).
Proof.
  induction lines as [|l lines IH]; [reflexivity|].
  cbn [flat_map]. rewrite written_text_app, written_text_line, IH.
  now rewrite concat_cons, replace_tabs_app.
Qed.

Lemma splitlines_from_concat n : forall s line,
  (String.length s <= n)%nat ->
  String.concat "" (splitlines_from line s) = line +:+ s.
Proof.
  induction n as [|n IH]; intros s line Hlen.
  - destruct s; [|simpl in Hlen; lia]. simpl.
    destruct (String.eqb line "") eqn:He.
    + apply String.eqb_eq in He. now subst.
    + simpl. now rewrite string_app_nil_r.
  - destruct s as [|c s].
    + simpl. destruct (String.eqb line "") eqn:He.
      * apply String.eqb_eq in He. now subst.
      * simpl. now rewrite string_app_nil_r.
    + simpl in Hlen. cbn [splitlines_from].
      destruct (Ascii.eqb c CR).
      * destruct s as [|c' s].
        { simpl. reflexivity. }
        destruct (Ascii.eqb c' LF).
        { rewrite concat_cons, IH by (simpl in Hlen; lia).
          now rewrite string_app_assoc. }
        { rewrite concat_cons, IH by lia. now rewrite string_app_assoc. }
      * destruct (is_line_break c).
        { rewrite concat_cons, IH by lia. now rewrite string_app_assoc. }
        { rewrite IH by lia. now rewrite string_app_assoc. }
Qed.

(** X19.  When the conversion succeeds, [IssuesRichText.write] moves to
    the end, writes, and moves to the end and shows the last position;
    the pieces that it writes, coloured or not, make up, in order, the
    whole converted text with every tab replaced by four spaces: no
    character is lost at the line breaks. *)
Theorem write_shows_all_text (inStr : WriteArg) (text : string) :
  getSringFromErrorList inStr = inr text ->
  exists ops,
    write inStr = (None, [MoveEnd] ++ ops ++ [MoveEnd; ShowLastPosition]) /\
    written_text ops = replace_tabs text /\
    written_text ([MoveEnd] ++ ops ++ [MoveEnd; ShowLastPosition])
    = replace_tabs text.
Proof.
  intros H. unfold write. rewrite H. eexists. split; [reflexivity|].
  assert (Hw : written_text (flat_map write_line (splitlines text))
               = replace_tabs text).
  { rewrite written_text_lines. unfold splitlines.
    now rewrite (splitlines_from_concat (String.length text)). }
  split; [exact Hw|]. cbn [app written_text].
  rewrite written_text_app, Hw. simpl. now rewrite string_app_nil_r.
Qed.

Lemma write_shows_all_text_witness :
  let item := Warnings.Warned 2002 PyNone "Syntax error compiling"
                ["  File a.py" +:+ String tab "line 3" +:+ nl] in
  getSringFromErrorList (Records [item])
  = inr ("2002" +:+ nl +:+ "None" +:+ nl +:+ "Syntax error compiling" +:+ nl
         +:+ "  File a.py" +:+ String tab "line 3" +:+ nl +:+ nl) /\
  exists ops,
    write (Records [item])
    = (None, [MoveEnd] ++ ops ++ [MoveEnd; ShowLastPosition]) /\
    written_text ops
    = "2002" +:+ nl +:+ "None" +:+ nl +:+ "Syntax error compiling" +:+ nl
      +:+ "  File a.py    line 3" +:+ nl +:+ nl.
Proof.
  intros item. split; [reflexivity|].
  destruct (write_shows_all_text (Records [item]) _ eq_refl)
    as (ops & Hw & Ht & _).
  exists ops. split; [exact Hw|]. rewrite Ht. reflexivity.
Defined.

Lemma one_line_uint (d : Decimal.uint) :
  one_line (NilEmpty.string_of_uint d) = true.
Proof. induction d; simpl; auto. Qed.

Lemma one_line_str_int (n : Z) : one_line (str_int n) = true.
Proof.
  unfold str_int, NilZero.string_of_int, NilZero.string_of_uint.
  destruct (Z.to_int n) as [d|d]; destruct d; simpl;
    try reflexivity; apply one_line_uint.
Qed.

Lemma splitlines_from_line (a : string) : forall line rest,
  one_line a = true ->
  splitlines_from line (a +:+ nl +:+ rest)
  = (line +:+ a +:+ nl) :: splitlines_from EmptyString rest.
Proof.
  induction a as [|c a IH]; intros line rest H.
  - reflexivity.
  - simpl in H. apply andb_true_iff in H as [Hc Ha].
    rewrite string_cons_app. cbn [splitlines_from].
    assert (Hcr : Ascii.eqb c CR = false).
    { destruct (Ascii.eqb c CR) eqn:E; [|reflexivity].
      apply Ascii.eqb_eq in E. subst c. discriminate. }
    rewrite Hcr. destruct (is_line_break c); [discriminate|].
    rewrite IH by exact Ha. now rewrite string_app_assoc.
Qed.

Lemma splitlines_shown (rs : list Shown) :
  Forall (fun r => one_line (py_str (sh_obj r)) = true /\
                   one_line (sh_msg r) = true /\
                   one_line (sh_frame r) = true) rs ->
  splitlines (String.concat "" (flat_map shown_lines rs))
  = flat_map shown_lines rs.
Proof.
  unfold splitlines. induction 1 as [|r rs (Ho & Hm & Hf) _ IH];
    [reflexivity|].
  cbn [flat_map shown_lines app]. rewrite !concat_cons.
  rewrite !string_app_assoc.
  rewrite splitlines_from_line by apply one_line_str_int.
  rewrite splitlines_from_line by exact Ho.
  rewrite splitlines_from_line by exact Hm.
  rewrite splitlines_from_line by exact Hf.
  now rewrite IH.
Qed.

(** X20.  For structured records whose object, message and last frame
    hold no line break, [IssuesRichText.write] makes exactly four pieces
    per record, in order the line of the code, of the object, of the
    message and of the last frame, and colours each piece by its own
    text. *)
Theorem write_four_pieces_per_record (rs : list Shown) :
  Forall (fun r => one_line (py_str (sh_obj r)) = true /\
                   one_line (sh_msg r) = true /\
                   one_line (sh_frame r) = true) rs ->
  write (Records (map shown_item rs))
  = (None,
     [MoveEnd] ++ flat_map write_line (flat_map shown_lines rs) ++
     [MoveEnd; ShowLastPosition]).
Proof.
  intros H. unfold write.
  assert (Hs : getSringFromErrorList (Records (map shown_item rs))
               = inr (String.concat "" (flat_map shown_lines rs)))
    by apply error_lines_shown.
  rewrite Hs. now rewrite splitlines_shown.
Qed.

Lemma write_four_pieces_per_record_witness :
  let r := {| sh_code := 1001; sh_obj := PyNone; sh_msg := "Dropped a frame";
              sh_earlier := ["outer"]; sh_frame := "inner" |} in
  Forall (fun r => one_line (py_str (sh_obj r)) = true /\
                   one_line (sh_msg r) = true /\
                   one_line (sh_frame r) = true) [r] /\
  write (Records (map shown_item [r]))
  = (None,
     [MoveEnd;
      BeginTextColour 150 0 0; WriteText ("1001" +:+ nl); EndTextColour;
      WriteText ("None" +:+ nl);
      WriteText ("Dropped a frame" +:+ nl);
      WriteText ("inner" +:+ nl);
      MoveEnd; ShowLastPosition]).
Proof.
  intros r.
  assert (H : Forall (fun r => one_line (py_str (sh_obj r)) = true /\
                               one_line (sh_msg r) = true /\
                               one_line (sh_frame r) = true) [r])
    by (repeat constructor).
  split; [exact H|].
  rewrite (write_four_pieces_per_record [r] H). reflexivity.
Defined.

End DialogExtras.

(** ** Runs and uninstalled handlers *)
Section RunExtras.
Import Alerts.




End RunExtras.

Section UninstallExtras.
Import Warnings.

#[local] Arguments attrs : simpl never.
#[local] Arguments set_attrs : simpl never.

(** X22.  Once a handler is uninstalled it receives nothing more: after
    [ErrorHandler()] and [unsetStdErr] on a process whose standard error
    is a text stream, a call of [warn] whose message resolves is logged,
    at the two levels, as if the handler had never been there, and the
    list of the handler stays empty. *)
Theorem uninstalled_handler_gets_nothing (w : World) (self : nat)
    (name : string) (code : Z) (obj : PyVal) (msg : string)
    (trace : option (list string)) (m : string) :
  sys_stderr w = TextStream name ->
  message_of code msg = Some m ->
  exists w',
    (ErrorHandler_init self ;; unsetStdErr self ;; warn code obj msg trace) w
    = (Ok tt, w') /\
    sys_stderr w' = TextStream name /\
    errList (attrs w' self) = Some [] /\
    log w' = log w ++
      [(WARNING, str_int code +:+ ": " +:+ m);
       (DEBUG, ("Warning trace (" +:+ str_int code +:+ "):" +:+ nl) +:+
               String.concat "" (trace_of w trace))].
Proof.
  intros Hs Hm.
  destruct (ErrorHandler_init_spec self w)
    as (w1 & Hi & Hs1 & Hl1 & _ & Ho1 & _ & Hlog1 & Hst1).
  destruct (bind_stderr_spec (sys_stderr w) w1)
    as (w2 & Hb & Hs2 & Hh2 & _ & Hlog2 & _).
  assert (Hu : unsetStdErr self w1 = (Ok tt, w2))
    by now rewrite (unsetStdErr_current self w1 _ Hs1 Ho1).
  assert (Hst2 : call_stack w2 = call_stack w).
  { assert (H : call_stack (snd (bind_stderr (sys_stderr w) w1))
                = call_stack w1) by reflexivity.
    rewrite Hb in H. simpl in H. congruence. }
  rewrite (bind_ok _ _ _ _ _ Hi), (bind_ok _ _ _ _ _ Hu).
  rewrite (warn_resolved w2 code obj msg trace m Hm).
  rewrite Hs2, Hs. unfold logging. run. eexists. split; [reflexivity|].
  simpl. split; [congruence|]. split.
  - unfold attrs in *. simpl. now rewrite Hh2.
  - rewrite <- app_assoc, Hlog2, Hlog1. simpl.
    unfold trace_of. now rewrite Hst2.
Qed.

Lemma uninstalled_handler_gets_nothing_witness :
  sys_stderr fresh_world = TextStream "<stderr>" /\
  message_of 1001 "" = Some "Dropped a frame" /\
  exists w',
    (ErrorHandler_init 0%nat ;; unsetStdErr 0%nat ;;
     warn 1001 PyNone "" (Some ["frame"])) fresh_world = (Ok tt, w') /\
    errList (attrs w' 0%nat) = Some [] /\
    log w' = [(WARNING, "1001: Dropped a frame");
              (DEBUG, "Warning trace (1001):" +:+ nl +:+ "frame")].
Proof.
  split; [reflexivity|]. split; [reflexivity|].
  destruct (uninstalled_handler_gets_nothing fresh_world 0%nat "<stderr>"
              1001 PyNone "" (Some ["frame"]) "Dropped a frame"
              eq_refl eq_refl) as (w' & Hrun & _ & Hl & Hlog).
  exists w'. split; [exact Hrun|]. split; [exact Hl|].
  rewrite Hlog. reflexivity.
Defined.

End UninstallExtras.

(** ** The bound of [split] *)
Section SplitBound.
Import PavloviaUI.

Lemma split_bounded_not_nil bound sep s : split_bounded bound sep s <> [].
Proof.
  destruct bound; cbn [split_bounded];
    destruct (find_first sep s) as [[a b]|]; discriminate.
Qed.

(** With the length of the string as the bound no cut is missed: joining
    the pieces with the separator gives the string back, and no piece
    holds the separator. *)
Lemma split_bounded_join sep :
  sep <> EmptyString ->
  forall bound s,
    (String.length s <= bound)%nat ->
    String.concat sep (split_bounded bound sep s) = s /\
    Forall (fun piece => ~ occurs sep piece) (split_bounded bound sep s).
Proof.
  intros Hsep. induction bound as [|bound IH]; intros s Hlen;
    cbn [split_bounded]; destruct (find_first sep s) as [[a b]|] eqn:Hf.
  - exfalso. apply find_first_Some in Hf. subst s.
    rewrite !string_length_app in Hlen. destruct sep; [congruence|].
    simpl in Hlen. lia.
  - split; [reflexivity|]. constructor; [|constructor].
    now apply find_first_None.
  - pose proof (find_first_Some _ _ _ _ Hf) as Hs.
    assert (Hb : (String.length b <= bound)%nat).
    { subst s. rewrite !string_length_app in Hlen.
      destruct sep; [congruence|]. simpl in Hlen. lia. }
    destruct (IH b Hb) as [Hj Hp].
    pose proof (split_bounded_not_nil bound sep b) as Hnn.
    destruct (split_bounded bound sep b) as [|p ps] eqn:E; [congruence|].
    split.
    + change (String.concat sep (a :: p :: ps))
        with (a +:+ sep +:+ String.concat sep (p :: ps)).
      now rewrite Hj.
    + constructor; [|exact Hp]. now apply (find_first_minimal _ _ _ _ Hsep Hf).
  - split; [reflexivity|]. constructor; [|constructor].
    now apply find_first_None.
Qed.

End SplitBound.
